(** * podcast-to-youtube: a shallow embedding of [main.go]

    The program fetches a podcast feed, asks for a range of episode
    numbers, and for every selected episode renders a slide, encodes a
    video with ffmpeg and uploads it to YouTube.

    Go strings are byte sequences; they are modelled by [string], whose
    characters are the 256 values of [ascii].  Go's [int] is taken at its
    64-bit size and modelled by [Z]. *)

From Stdlib Require Import ZArith List String Ascii Bool Lia DecimalString
  DecimalPos.
Import ListNotations.

Local Open Scope string_scope.
Local Open Scope Z_scope.

(** ** Bytes and strings *)

Definition byte_val (c : ascii) : Z := Z.of_N (N_of_ascii c).

Definition LF : string := String "010"%char EmptyString.
Definition TAB : string := String "009"%char EmptyString.

(** [s[n:]] for [n <= len(s)]. *)
Fixpoint drop (n : nat) (s : string) : string :=
  match n, s with
  | O, _ => s
  | S n', String _ s' => drop n' s'
  | S _, EmptyString => EmptyString
  end.

(** [s[:n]] for [n <= len(s)]. *)
Fixpoint take (n : nat) (s : string) : string :=
  match n, s with
  | O, _ => EmptyString
  | S n', String c s' => String c (take n' s')
  | S _, EmptyString => EmptyString
  end.

(** ** Package [strings] *)

(** [strings.Index]: the position of the first instance of [substr] in
    [s]; [None] stands for Go's -1. *)
Fixpoint Index (s substr : string) : option nat :=
  if prefix substr s then Some O
  else match s with
       | EmptyString => None
       | String _ s' => option_map S (Index s' substr)
       end.

(** The loop of [strings.Count] for a non-empty [substr]: each round
    looks for the next instance and continues behind it.  A round
    consumes at least one byte, so [length s] rounds suffice. *)
Fixpoint countLoop (fuel : nat) (s substr : string) (n : nat) : nat :=
  match fuel with
  | O => n
  | S fuel' =>
      match Index s substr with
      | None => n
      | Some i => countLoop fuel' (drop (i + length substr) s) substr (S n)
      end
  end.

(** [strings.Count] for a non-empty [substr]: the number of
    non-overlapping instances. *)
Definition Count (s substr : string) : nat :=
  countLoop (String.length s) s substr O.

(** The loop [for i < n-1] of [genSplit]; [rounds] is [n-1-i]. *)
Fixpoint genSplit (rounds : nat) (s sep : string) : list string :=
  match rounds with
  | O => [s]
  | S rounds' =>
      match Index s sep with
      | None => [s]
      | Some m => take m s :: genSplit rounds' (drop (m + length sep) s) sep
      end
  end.

(** Go's [explode] cuts a string into its UTF-8 sequences.  On strings of
    single-byte characters that is one string per byte, which is what is
    modelled here; the program never splits on the empty separator. *)
Fixpoint explode (s : string) : list string :=
  match s with
  | EmptyString => []
  | String c s' => String c EmptyString :: explode s'
  end.

(** [strings.Split(s, sep)], that is [genSplit(s, sep, 0, -1)]. *)
Definition Split (s sep : string) : list string :=
  match sep with
  | EmptyString => explode s
  | String _ _ => genSplit (Count s sep) s sep
  end.

(** The loop of [strings.Replace] for a non-empty [old]: [n] instances
    are replaced, left to right. *)
Fixpoint replaceLoop (n : nat) (s old new : string) : string :=
  match n with
  | O => s
  | S n' =>
      match Index s old with
      | None => s
      | Some j =>
          take j s ++ new ++ replaceLoop n' (drop (j + length old) s) old new
      end
  end.

(** [strings.Replace(s, old, new, n)] for a non-empty [old]; a negative
    [n] lifts the limit on the number of replacements.  (For an empty
    [old] Go inserts [new] around every UTF-8 sequence; the program never
    does that and the model returns [s] there.) *)
Definition Replace (s old new : string) (n : Z) : string :=
  if (old =? new)%string || (n =? 0) then s
  else match old with
       | EmptyString => s
       | String _ _ =>
           let m := Count s old in
           if (m =? 0)%nat then s
           else
             let n' := if (n <? 0) || (Z.of_nat m <? n) then m else Z.to_nat n in
             replaceLoop n' s old new
       end.

(** ** Package [strconv] *)

Inductive numErr := ErrSyntax | ErrRange.

(** [*strconv.NumError]. *)
Record NumError := { Func : string; Num : string; Err : numErr }.

(** The error values the program manipulates: a [*NumError] of [strconv],
    or an error made of its text ([errors.New], [fmt.Errorf]). *)
Inductive error :=
| ENum (e : NumError)
| ENew (msg : string).

Definition intSize : Z := 64.
Definition maxUint64 : Z := 2 ^ 64 - 1.
Definition maxInt : Z := 2 ^ (intSize - 1) - 1.
Definition minInt : Z := - 2 ^ (intSize - 1).

(** The digit loop of [ParseUint(s, 10, 0)]; [n] is a [uint64], the sum
    [n*10 + d] wraps around.  Every byte that is not a decimal digit is a
    syntax error: letters are digits of a larger base and the underscore
    is accepted for base 0 only. *)
Fixpoint parseUintLoop (s : string) (n : Z) : Z * option numErr :=
  match s with
  | EmptyString => (n, None)
  | String c s' =>
      if (byte_val "0" <=? byte_val c) && (byte_val c <=? byte_val "9") then
        let d := byte_val c - byte_val "0" in
        if maxUint64 / 10 + 1 <=? n then (maxUint64, Some ErrRange)
        else
          let n10 := n * 10 in
          let n1 := (n10 + d) mod 2 ^ 64 in
          if (n1 <? n10) || (maxUint64 <? n1) then (maxUint64, Some ErrRange)
          else parseUintLoop s' n1
      else (0, Some ErrSyntax)
  end.

Definition ParseUint10 (s : string) : Z * option numErr :=
  match s with
  | EmptyString => (0, Some ErrSyntax)
  | String _ _ => parseUintLoop s 0
  end.

(** [ParseInt(s, 10, 0)], with the name of the calling function for the
    error. *)
Definition ParseInt10 (fn : string) (s : string) : Z * option error :=
  match s with
  | EmptyString => (0, Some (ENum {| Func := fn; Num := s; Err := ErrSyntax |}))
  | String c s' =>
      let neg := Ascii.eqb c "-" in
      let body := if Ascii.eqb c "+" || neg then s' else s in
      match ParseUint10 body with
      | (_, Some ErrSyntax) =>
          (0, Some (ENum {| Func := fn; Num := s; Err := ErrSyntax |}))
      | (un, _) =>
          let cutoff := 2 ^ (intSize - 1) in
          if negb neg && (cutoff <=? un) then
            (cutoff - 1, Some (ENum {| Func := fn; Num := s; Err := ErrRange |}))
          else if neg && (cutoff <? un) then
            (- cutoff, Some (ENum {| Func := fn; Num := s; Err := ErrRange |}))
          else (if neg then - un else un, None)
      end
  end.

(** [strconv.Atoi]: [ParseInt(s, 10, 0)] converted to [int] (its fast
    path for short inputs computes the same result). *)
Definition Atoi (s : string) : Z * option error := ParseInt10 "Atoi" s.

(** [strconv.Itoa], also the verb [%d] of [fmt]. *)
Definition Itoa (n : Z) : string := NilZero.string_of_int (Z.to_int n).

(** ** Run-time panics *)

Inductive panic :=
| IndexOutOfRange (i : nat) (len : nat).

(** A computation that either yields a value or panics. *)
Inductive partial (A : Type) :=
| Val (a : A)
| Panics (p : panic).
Arguments Val {A} a.
Arguments Panics {A} p.

Definition pbind {A B} (m : partial A) (k : A -> partial B) : partial B :=
  match m with
  | Val a => k a
  | Panics p => Panics p
  end.

(** The index expression [xs[i]]. *)
Definition index {A} (xs : list A) (i : nat) : partial A :=
  match nth_error xs i with
  | Some x => Val x
  | None => Panics (IndexOutOfRange i (List.length xs))
  end.

(** ** [parseRange] *)

Definition errFormats : error := ENew "only formats supported are n or m-n".

(** [parseRange] parses either a range (n-m) or a single episode number
    (n) and returns the first and last elements of the range. *)
Definition parseRange (s : string) : partial (Z * Z * option error) :=
  let ps := Split s "-" in
  match List.length ps with
  | 1%nat =>
      pbind (index ps 0) (fun p0 =>
      let '(n, err) := Atoi p0 in
      Val (n, n, err))
  | 2%nat =>
      pbind (index ps 0) (fun p0 =>
      let '(from, err) := Atoi p0 in
      match err with
      | Some e => Val (0, 0, Some e)
      | None =>
          pbind (index ps 1) (fun p1 =>
          let '(to, err) := Atoi p1 in
          Val (from, to, err))
      end)
  | _ => Val (0, 0, Some errFormats)
  end.

(** ** Data of the program *)

Record episode := {
  Title : string;
  Number : Z;
  Link : string;
  Desc : string;
  MP3 : string;
  Tags : list string
}.

(** The document [fetchFeed] decodes the feed into. *)
Module Feed.
Record item := {
  Title : string;
  Number : Z;
  Link : string;
  Desc : string;
  MP3_URL : string;
  Category : list string
}.
Record channel := { Item : list item }.
Record rss := { Channel : list channel }.
End Feed.

Module youtube.
Record VideoSnippet := {
  Title : string;
  Description : string;
  Tags : list string
}.
Record VideoStatus := { PrivacyStatus : string }.
Record Video := { Snippet : VideoSnippet; Status : VideoStatus }.
Definition YoutubeUploadScope : string :=
  "https://www.googleapis.com/auth/youtube.upload".
End youtube.

(** ** The outside world

    Everything the program reaches through a library is a field of
    [Platform]: the types of the values it is handed, pure library
    functions, and operations on the world, which take the state of the
    world and return their result with the new state.  A Go result
    [(x, err)] of such an operation is a sum, [inl err] or [inr x]; a
    result [err] alone is an [option]. *)
Record Platform := {
  World : Type;
  Color : Type;
  Image : Type;
  Response : Type;
  Config : Type;
  Token : Type;
  Client : Type;
  File : Type;
  Service : Type;
  (* strconv, path/filepath, bluemonday *)
  strconv_Quote : string -> string;
  filepath_Join : string -> string -> string;
  bluemonday_StrictPolicy_Sanitize : string -> string;
  (* fmt *)
  fmt_Scanln : World -> option string * World;
  (* net/http, encoding/xml *)
  http_Get : string -> World -> (error + Response) * World;
  Body_Close : Response -> World -> World;
  xml_Decode : Response -> World -> (error + Feed.rss) * World;
  (* io/ioutil, os, os/exec *)
  ioutil_ReadFile : string -> World -> (error + string) * World;
  ioutil_TempDir : string -> string -> World -> (error + string) * World;
  os_RemoveAll : string -> World -> option error * World;
  os_Create : string -> World -> (error + File) * World;
  os_Open : string -> World -> (error + File) * World;
  File_Close : File -> World -> option error * World;
  exec_Run : string -> list string -> World -> option error * World;
  (* image, image/png *)
  image_Generate :
    string -> string -> string -> Color -> Color -> Z -> Z ->
    World -> (error + Image) * World;
  png_Encode : File -> Image -> World -> option error * World;
  (* oauth2 *)
  google_ConfigFromJSON : string -> string -> error + Config;
  Config_AuthCodeURL : Config -> string -> string;
  Config_Exchange : Config -> string -> World -> (error + Token) * World;
  Config_Client : Config -> Token -> Client;
  (* youtube *)
  youtube_New : option Client -> World -> (error + Service) * World;
  Videos_Insert_Media_Do :
    Service -> string -> youtube.Video -> File -> World -> option error * World
}.

(** What the run does to the world, in order. *)
Inductive event :=
| Stdout (s : string)
| Stderr (s : string)
| LogPrintf (s : string)
| EvScanln
| EvHttpGet (url : string)
| EvBodyClose
| EvXmlDecode
| EvReadFile (path : string)
| EvExchange (code : string)
| EvTempDir
| EvRemoveAll (dir : string)
| EvGenerate (text : string) (width height : Z)
| EvCreate (path : string)
| EvPngEncode
| EvFileClose
| EvExec (name : string) (args : list string)
| EvYoutubeNew
| EvOpen (path : string)
| EvInsert (part : string) (data : youtube.Video) (path : string).

(** How a computation ends: with a value, in [os.Exit], or in a panic. *)
Inductive outcome (A : Type) :=
| Ret (a : A)
| Exit (code : Z)
| Panic (p : panic).
Arguments Ret {A} a.
Arguments Exit {A} code.
Arguments Panic {A} p.

Section Program.

Variable P : Platform.

(** A computation on the world: its outcome, the world it leaves and
    the events it produced. *)
Definition IO (A : Type) : Type :=
  World P -> outcome A * World P * list event.

Definition ret {A} (a : A) : IO A := fun w => (Ret a, w, []).

Definition bind {A B} (m : IO A) (k : A -> IO B) : IO B := fun w =>
  match m w with
  | (Ret a, w1, t1) => let '(o, w2, t2) := k a w1 in (o, w2, (t1 ++ t2)%list)
  | (Exit c, w1, t1) => (Exit c, w1, t1)
  | (Panic p, w1, t1) => (Panic p, w1, t1)
  end.

Definition emit (e : event) : IO unit := fun w => (Ret tt, w, [e]).

(** A call of an operation of the platform, recorded as [e]. *)
Definition call {A} (e : event) (op : World P -> A * World P) : IO A :=
  fun w => let '(a, w1) := op w in (Ret a, w1, [e]).

Definition os_Exit {A} (code : Z) : IO A := fun w => (Exit code, w, []).

Definition lift {A} (m : partial A) : IO A := fun w =>
  match m with
  | Val a => (Ret a, w, [])
  | Panics p => (Panic p, w, [])
  end.

(** [defer cleanup; body]: [cleanup] runs when [body] returns or
    panics, not when it exits the process. *)
Definition defer {A} (cleanup : IO unit) (body : IO A) : IO A := fun w =>
  match body w with
  | (Exit c, w1, t1) => (Exit c, w1, t1)
  | (o, w1, t1) =>
      match cleanup w1 with
      | (Ret _, w2, t2) => (o, w2, (t1 ++ t2)%list)
      | (Exit c, w2, t2) => (Exit c, w2, (t1 ++ t2)%list)
      | (Panic p, w2, t2) => (Panic p, w2, (t1 ++ t2)%list)
      end
  end.

End Program.

Arguments ret {P A} a.
Arguments bind {P A B} m k.
Arguments emit {P} e.
Arguments call {P A} e op.
Arguments os_Exit {P A} code.
Arguments lift {P A} m.
Arguments defer {P A} cleanup body.

Declare Scope io_scope.
Delimit Scope io_scope with io.
Notation "x <- m ;; k" := (bind m (fun x => k))
  (at level 61, m at next level, right associativity) : io_scope.
Notation "' pat <- m ;; k" := (bind m (fun x => match x with pat => k end))
  (at level 61, pat pattern, m at next level, right associativity) : io_scope.
Notation "m ;; k" := (bind m (fun _ => k))
  (at level 61, right associativity) : io_scope.

(** ** The program *)

(** The command-line flags, as [flag.Parse] leaves them. *)
Record Flags (P : Platform) := {
  rssFeed : string;
  logo : string;
  font : string;
  (** [titleTmpl.Execute(&buf, ep)]: what is written to the buffer, and
      the error. *)
  titleTmpl : episode -> string * option error;
  foreground : Color P;
  background : Color P;
  width : Z;
  height : Z;
  tags : string
}.
Arguments rssFeed {P} _.
Arguments logo {P} _.
Arguments font {P} _.
Arguments titleTmpl {P} _ _.
Arguments foreground {P} _.
Arguments background {P} _.
Arguments width {P} _.
Arguments height {P} _.
Arguments tags {P} _.

Definition numErr_Error (e : numErr) : string :=
  match e with
  | ErrSyntax => "invalid syntax"
  | ErrRange => "value out of range"
  end.

Section Main.

Variable P : Platform.
Variable fl : Flags P.

Local Open Scope io_scope.

(** The method [Error], also the verb [%v] of [fmt] on an error. *)
Definition Error (e : error) : string :=
  match e with
  | ENum ne =>
      "strconv." ++ Func ne ++ ": parsing " ++ strconv_Quote P (Num ne)
      ++ ": " ++ numErr_Error (Err ne)
  | ENew msg => msg
  end.

(** [failf] with its format already applied to its arguments. *)
Definition failf {A} (s : string) : IO P A :=
  emit (Stderr s) ;; os_Exit 1.

(** [fmt.Scanln(&answer)]: [answer] keeps its value when no token was
    read. *)
Definition Scanln (answer : string) : IO P string :=
  r <- call EvScanln (fmt_Scanln P) ;;
  ret (match r with Some tok => tok | None => answer end).

Definition episode_of_item (i : Feed.item) : episode :=
  {| Title := Feed.Title i;
     Number := Feed.Number i;
     Link := Feed.Link i;
     Desc := Feed.Desc i;
     MP3 := Feed.MP3_URL i;
     Tags := Feed.Category i |}.

Definition fetchFeed (rss : string) : IO P (list episode * option error) :=
  r <- call (EvHttpGet rss) (http_Get P rss) ;;
  match r with
  | inl err =>
      ret ([], Some (ENew ("could not get " ++ rss ++ ": " ++ Error err)))
  | inr res =>
      defer (call EvBodyClose (fun w => (tt, Body_Close P res w)))
        (d <- call EvXmlDecode (xml_Decode P res) ;;
         match d with
         | inl err =>
             ret ([], Some (ENew ("could not decode feed: " ++ Error err)))
         | inr data =>
             ch <- lift (index (Feed.Channel data) 0) ;;
             ret (fold_left
                    (fun eps i => (eps ++ [episode_of_item i])%list)
                    (Feed.Item ch) [],
                  None)
         end)
  end.

(** [authedClient] performs an offline OAuth flow. *)
Definition authedClient : IO P (option (Client P) * option error) :=
  let path := "client_secrets.json" in
  r <- call (EvReadFile path) (ioutil_ReadFile P path) ;;
  match r with
  | inl err =>
      ret (None, Some (ENew ("could not open " ++ path ++ ": " ++ Error err)))
  | inr b =>
      match google_ConfigFromJSON P b youtube.YoutubeUploadScope with
      | inl err =>
          ret (None, Some (ENew ("could not parse config: " ++ Error err)))
      | inr cfg =>
          let url := Config_AuthCodeURL P cfg EmptyString in
          emit (Stdout ("Go here: " ++ LF ++ TAB ++ url ++ LF)) ;;
          emit (Stdout "Then enter the code: ") ;;
          code <- Scanln EmptyString ;;
          r <- call (EvExchange code) (Config_Exchange P cfg code) ;;
          match r with
          | inl err => ret (None, Some err)
          | inr tok => ret (Some (Config_Client P cfg tok), None)
          end
      end
  end.

(** [writePNG] encodes the given image as a PNG file at the given path. *)
Definition writePNG (path : string) (img : Image P) : IO P (option error) :=
  r <- call (EvCreate path) (os_Create P path) ;;
  match r with
  | inl err =>
      ret (Some (ENew ("could not create " ++ path ++ ": " ++ Error err)))
  | inr f =>
      r <- call EvPngEncode (png_Encode P f img) ;;
      match r with
      | Some err =>
          ret (Some (ENew ("could not encode to " ++ path ++ ": " ++ Error err)))
      | None =>
          r <- call EvFileClose (File_Close P f) ;;
          match r with
          | Some err =>
              ret (Some (ENew ("could not close " ++ path ++ ": " ++ Error err)))
          | None => ret None
          end
      end
  end.

(** [ffmpeg] creates a video at the filepath [vid], with the image at
    [img] as fixed background and the audio at [mp3]. *)
Definition ffmpeg (img mp3 vid : string) : IO P (option error) :=
  let args :=
    ["-y"; "-loop"; "1"; "-i"; img; "-i"; mp3; "-shortest";
     "-c:v"; "libx264"; "-pix_fmt"; "yuv420p"; "-c:a"; "aac"; "-crf"; "18";
     vid] in
  call (EvExec "ffmpeg" args) (exec_Run P "ffmpeg" args).

(** [upload] uploads the video in the given path to YouTube with the
    given details. *)
Definition upload (client : option (Client P)) (data : youtube.Video)
    (path : string) : IO P (option error) :=
  r <- call EvYoutubeNew (youtube_New P client) ;;
  match r with
  | inl err =>
      ret (Some (ENew ("could not create YouTube client: " ++ Error err)))
  | inr service =>
      r <- call (EvOpen path) (os_Open P path) ;;
      match r with
      | inl err =>
          ret (Some (ENew ("could not open " ++ path ++ ": " ++ Error err)))
      | inr f =>
          defer (call EvFileClose (File_Close P f) ;; ret tt)
            (call (EvInsert "snippet,status" data path)
               (Videos_Insert_Media_Do P service "snippet,status" data f))
      end
  end.

(** [process] creates the video for the given episode and uploads it to
    YouTube using an authenticated HTTP client. *)
Definition process (client : option (Client P)) (ep : episode)
    : IO P (option error) :=
  r <- call EvTempDir (ioutil_TempDir P EmptyString EmptyString) ;;
  match r with
  | inl err =>
      ret (Some (ENew ("could not create temp directory: " ++ Error err)))
  | inr tmpDir =>
      defer
        (r <- call (EvRemoveAll tmpDir) (os_RemoveAll P tmpDir) ;;
         match r with
         | Some err =>
             emit (LogPrintf ("could not remove " ++ tmpDir ++ ": " ++ Error err))
         | None => ret tt
         end)
        (let text := Itoa (Number ep) ++ ": " ++ Title ep in
         r <- call (EvGenerate text (width fl) (height fl))
                (image_Generate P (logo fl) text (font fl)
                   (foreground fl) (background fl) (width fl) (height fl)) ;;
         match r with
         | inl err =>
             ret (Some (ENew ("could not generate image: " ++ Error err)))
         | inr img =>
             (* We create the image and store it in the temp directory. *)
             let slide := filepath_Join P tmpDir "slide.png" in
             r <- writePNG slide img ;;
             match r with
             | Some err =>
                 ret (Some (ENew ("could not create image: " ++ Error err)))
             | None =>
                 (* Then we create the video. *)
                 let vid := filepath_Join P tmpDir "vid.mp4" in
                 r <- ffmpeg slide (MP3 ep) vid ;;
                 match r with
                 | Some err =>
                     ret (Some (ENew ("could not create video: "
                                      ++ Error err ++ LF)))
                 | None =>
                     (* We generate the metadata for the YouTube upload. *)
                     let '(buf, err) := titleTmpl fl ep in
                     match err with
                     | Some err =>
                         ret (Some (ENew
                           ("could not create video title from template: "
                            ++ Error err)))
                     | None =>
                         (* We drop all the HTML tags and line breaks from
                            the description. *)
                         let desc :=
                           bluemonday_StrictPolicy_Sanitize P (Desc ep) in
                         let desc := Replace desc LF " " (-1) in
                         let data :=
                           {| youtube.Snippet :=
                                {| youtube.Title := buf;
                                   youtube.Description :=
                                     ("Original post: " ++ Link ep ++ LF ++ LF)
                                     ++ desc;
                                   youtube.Tags :=
                                     (Tags ep ++ Split (tags fl) ",")%list |};
                              youtube.Status :=
                                {| youtube.PrivacyStatus := "unlisted" |} |} in
                         (* And finally we upload the video to YouTube. *)
                         r <- upload client data vid ;;
                         match r with
                         | Some err =>
                             ret (Some (ENew ("could not upload to YouTube: "
                                              ++ Error err)))
                         | None => ret None
                         end
                     end
                 end
             end
         end)
  end.

(** The selection loop of [main]. *)
Fixpoint selectLoop (from to : Z) (eps : list episode)
    (selected : list episode) : IO P (list episode) :=
  match eps with
  | [] => ret selected
  | e :: eps' =>
      if (from <=? Number e) && (Number e <=? to) then
        emit (Stdout ("episode " ++ Itoa (Number e) ++ ": " ++ Title e ++ LF)) ;;
        selectLoop from to eps' (selected ++ [e])%list
      else selectLoop from to eps' selected
  end.

(** The processing loop of [main]. *)
Fixpoint processLoop (client : option (Client P)) (selected : list episode)
    : IO P unit :=
  match selected with
  | [] => ret tt
  | ep :: selected' =>
      err <- process client ep ;;
      match err with
      | Some err =>
          failf ("episode " ++ Itoa (Number ep) ++ ": " ++ Error err ++ LF)
      | None => processLoop client selected'
      end
  end.

Definition main : IO P unit :=
  '(eps, err) <- fetchFeed (rssFeed fl) ;;
  match err with
  | Some err => failf (Error err ++ LF)
  | None =>
      emit (Stdout "episode number to publish (try 1, or 2-10): ") ;;
      answer <- Scanln EmptyString ;;
      '(from, to, err) <- lift (parseRange answer) ;;
      match err with
      | Some _ => failf (answer ++ " is an invalid range" ++ LF)
      | None =>
          selected <- selectLoop from to eps [] ;;
          if (List.length selected =? 0)%nat then
            failf ("no episodes selected" ++ LF)
          else
            emit (Stdout "publish? (Y/n): ") ;;
            answer <- Scanln EmptyString ;;
            if negb ((answer =? "Y")%string || (answer =? "y")%string
                     || (answer =? EmptyString)%string)
            then ret tt
            else
              '(client, err) <- authedClient ;;
              match err with
              | Some err =>
                  failf ("could not authenticate with YouTube: "
                         ++ Error err ++ LF)
              | None => processLoop client selected
              end
      end
  end.

(** The exit status of the process: 0 when [main] returns, the argument
    of [os.Exit], 2 after a panic. *)
Definition status (o : outcome unit) : Z :=
  match o with
  | Ret _ => 0
  | Exit code => code
  | Panic _ => 2
  end.

End Main.

Arguments failf {P A} s.
Arguments Scanln {P} answer.
Arguments fetchFeed {P} rss.
Arguments authedClient {P}.
Arguments writePNG {P} path img.
Arguments ffmpeg {P} img mp3 vid.
Arguments upload {P} client data path.
Arguments process {P} fl client ep.
Arguments selectLoop {P} from to eps selected.
Arguments processLoop {P} fl client selected.
Arguments main {P} fl.

(** ** Notions the properties are stated with *)

Fixpoint countByte (c : ascii) (s : string) : nat :=
  match s with
  | EmptyString => O
  | String a s' => if Ascii.eqb c a then S (countByte c s') else countByte c s'
  end.

Fixpoint mapBytes (f : ascii -> ascii) (s : string) : string :=
  match s with
  | EmptyString => EmptyString
  | String a s' => String (f a) (mapBytes f s')
  end.

(** The byte [a] with [d] substituted for [c]. *)
Definition substByte (c d a : ascii) : ascii :=
  if Ascii.eqb c a then d else a.

(** The byte-wise substitution of a space for a line feed. *)
Definition flatten : ascii -> ascii := substByte "010" " ".

(** *** Decimal numerals *)

Definition isDigit (c : ascii) : bool :=
  (byte_val "0" <=? byte_val c) && (byte_val c <=? byte_val "9").

Fixpoint allDigits (s : string) : bool :=
  match s with
  | EmptyString => true
  | String c s' => isDigit c && allDigits s'
  end.

(** The number a string of decimal digits denotes, most significant
    digit first, continuing from [acc]. *)
Fixpoint decimal (s : string) (acc : Z) : Z :=
  match s with
  | EmptyString => acc
  | String c s' => decimal s' (acc * 10 + (byte_val c - byte_val "0"))
  end.

(** A non-empty string of decimal digits. *)
Definition isDigits (s : string) : bool :=
  match s with
  | EmptyString => false
  | String _ _ => allDigits s
  end.

(** The syntax [Atoi] accepts: digits behind an optional sign. *)
Definition isNumeric (s : string) : bool :=
  match s with
  | EmptyString => false
  | String c s' =>
      if Ascii.eqb c "+" || Ascii.eqb c "-" then isDigits s' else isDigits s
  end.

(** *** Runs *)

Definition outcomeOf {A W} (r : outcome A * W * list event) : outcome A :=
  fst (fst r).
Definition worldOf {A W} (r : outcome A * W * list event) : W :=
  snd (fst r).
Definition traceOf {A W} (r : outcome A * W * list event) : list event :=
  snd r.

(** [r] behind the events [t]. *)
Definition after {A W} (t : list event) (r : outcome A * W * list event)
    : outcome A * W * list event :=
  (outcomeOf r, worldOf r, (t ++ traceOf r)%list).

(** The events only [authedClient] produces. *)
Definition authEvent (e : event) : bool :=
  match e with
  | EvReadFile _ | EvExchange _ => true
  | _ => false
  end.

(** The range test of the selection loop. *)
Definition inRange (from to : Z) (e : episode) : bool :=
  (from <=? Number e) && (Number e <=? to).

(** The line the selection loop prints for an episode. *)
Definition selectedLine (e : episode) : event :=
  Stdout ("episode " ++ Itoa (Number e) ++ ": " ++ Title e ++ LF).

(** [xs] is made of elements of [ys], in the order they have in [ys]. *)
Inductive Subseq {A : Type} : list A -> list A -> Prop :=
| Subseq_nil : Subseq [] []
| Subseq_keep x xs ys : Subseq xs ys -> Subseq (x :: xs) (x :: ys)
| Subseq_skip y xs ys : Subseq xs ys -> Subseq xs (y :: ys).

(** *** Sample inputs *)

(** A platform on which every operation succeeds: the feed decodes to
    [doc], and the world is the list of the tokens still to be read from
    standard input, an empty token standing for an empty line. *)
Definition demo (doc : Feed.rss) : Platform := {|
  World := list string;
  Color := unit;
  Image := unit;
  Response := unit;
  Config := unit;
  Token := unit;
  Client := unit;
  File := unit;
  Service := unit;
  strconv_Quote := fun s => s;
  filepath_Join := fun dir name => dir ++ "/" ++ name;
  bluemonday_StrictPolicy_Sanitize := fun s => s;
  fmt_Scanln := fun w =>
    match w with
    | [] => (None, [])
    | tok :: w' => (if (tok =? EmptyString)%string then None else Some tok, w')
    end;
  http_Get := fun _ w => (inr tt, w);
  Body_Close := fun _ w => w;
  xml_Decode := fun _ w => (inr doc, w);
  ioutil_ReadFile := fun _ w => (inr "{}", w);
  ioutil_TempDir := fun _ _ w => (inr "/tmp/1", w);
  os_RemoveAll := fun _ w => (None, w);
  os_Create := fun _ w => (inr tt, w);
  os_Open := fun _ w => (inr tt, w);
  File_Close := fun _ w => (None, w);
  exec_Run := fun _ _ w => (None, w);
  image_Generate := fun _ _ _ _ _ _ _ w => (inr tt, w);
  png_Encode := fun _ _ w => (None, w);
  google_ConfigFromJSON := fun _ _ => inr tt;
  Config_AuthCodeURL := fun _ _ => "https://accounts.example/auth";
  Config_Exchange := fun _ _ w => (inr tt, w);
  Config_Client := fun _ _ => tt;
  youtube_New := fun _ w => (inr tt, w);
  Videos_Insert_Media_Do := fun _ _ _ _ w => (None, w)
|}.

(** The default flags, with the default title template
    [{{.Title}}: GCPPodcast {{.Number}}]. *)
Definition demoFlags (doc : Feed.rss) : Flags (demo doc) := {|
  rssFeed := "http://feeds.feedburner.com/GcpPodcast?format=xml";
  logo := "resources/logo.png";
  font := "resources/Roboto-Light.ttf";
  titleTmpl := fun ep => (Title ep ++ ": GCPPodcast " ++ Itoa (Number ep), None);
  foreground := (tt : Color (demo doc));
  background := (tt : Color (demo doc));
  width := 1280;
  height := 720;
  tags := "podcast,gcppodcast"
|}.

Definition demoItem (n : Z) (title : string) : Feed.item := {|
  Feed.Title := title;
  Feed.Number := n;
  Feed.Link := "http://x/" ++ Itoa n;
  Feed.Desc := "Hello" ++ LF ++ "world";
  Feed.MP3_URL := "http://x/" ++ Itoa n ++ ".mp3";
  Feed.Category := ["cloud"]
|}.

Definition demoFeed : Feed.rss := {|
  Feed.Channel :=
    [ {| Feed.Item := [demoItem 1 "one"; demoItem 2 "two";
                       demoItem 3 "three"; demoItem 5 "five"] |} ]
|}.

Definition emptyFeed : Feed.rss := {| Feed.Channel := [] |}.

Definition demoEpisode : episode := episode_of_item (demoItem 1 "one").

Definition demoVideo : youtube.Video := {|
  youtube.Snippet := {|
    youtube.Title := "one: GCPPodcast 1";
    youtube.Description :=
      "Original post: http://x/1" ++ LF ++ LF ++ "Hello world";
    youtube.Tags := ["cloud"; "podcast"; "gcppodcast"] |};
  youtube.Status := {| youtube.PrivacyStatus := "unlisted" |}
|}.

Definition plainEpisode : episode := {|
  Title := "one";
  Number := 1;
  Link := "http://x/1";
  Desc := "Hello world";
  MP3 := "http://x/1.mp3";
  Tags := ["cloud"]
|}.

(** *** Computations that return *)

(** [m] returns a value from every world: it neither exits the process
    nor panics. *)
Definition returns {P : Platform} {A : Type} (m : IO P A) : Prop :=
  forall w, exists a w' t, m w = (Ret a, w', t).

(** The events of [process] behind the creation of the temporary
    directory are followed by its removal, logged when it fails. *)
Definition removal (P : Platform) (tmpDir : string) (rm : option error)
    : list event :=
  EvRemoveAll tmpDir
  :: match rm with
     | Some err =>
         [LogPrintf ("could not remove " ++ tmpDir ++ ": " ++ Error P err)]
     | None => []
     end.

(** *** A platform with failures *)

(** The error of the operation [op] on [arg]. *)
Definition failure (op arg : string) : error :=
  ENew (op ++ " " ++ arg ++ ": failed").

(** As [demo], but the operation [op] fails on the argument [arg] when
    [fail op arg] holds; an operation is given its path, URL, or text as
    [arg], and the empty string when it has none. *)
Definition sample (doc : Feed.rss) (fail : string -> string -> bool)
    : Platform := {|
  World := list string;
  Color := unit;
  Image := unit;
  Response := unit;
  Config := unit;
  Token := unit;
  Client := unit;
  File := string;
  Service := unit;
  strconv_Quote := fun s => s;
  filepath_Join := fun dir name => dir ++ "/" ++ name;
  bluemonday_StrictPolicy_Sanitize := fun s => s;
  fmt_Scanln := fun w =>
    match w with
    | [] => (None, [])
    | tok :: w' => (if (tok =? EmptyString)%string then None else Some tok, w')
    end;
  http_Get := fun url w =>
    (if fail "http.Get" url then inl (failure "http.Get" url) else inr tt, w);
  Body_Close := fun _ w => w;
  xml_Decode := fun _ w =>
    (if fail "xml.Decode" EmptyString
     then inl (failure "xml.Decode" EmptyString) else inr doc, w);
  ioutil_ReadFile := fun path w =>
    (if fail "ioutil.ReadFile" path
     then inl (failure "ioutil.ReadFile" path) else inr "{}", w);
  ioutil_TempDir := fun _ _ w =>
    (if fail "ioutil.TempDir" EmptyString
     then inl (failure "ioutil.TempDir" EmptyString) else inr "/tmp/1", w);
  os_RemoveAll := fun dir w =>
    (if fail "os.RemoveAll" dir then Some (failure "os.RemoveAll" dir) else None,
     w);
  os_Create := fun path w =>
    (if fail "os.Create" path then inl (failure "os.Create" path) else inr path,
     w);
  os_Open := fun path w =>
    (if fail "os.Open" path then inl (failure "os.Open" path) else inr path, w);
  File_Close := fun f w =>
    (if fail "File.Close" f then Some (failure "File.Close" f) else None, w);
  exec_Run := fun name _ w =>
    (if fail "exec.Run" name then Some (failure "exec.Run" name) else None, w);
  image_Generate := fun _ text _ _ _ _ _ w =>
    (if fail "image.Generate" text
     then inl (failure "image.Generate" text) else inr tt, w);
  png_Encode := fun f _ w =>
    (if fail "png.Encode" f then Some (failure "png.Encode" f) else None, w);
  google_ConfigFromJSON := fun b _ =>
    if fail "google.ConfigFromJSON" b
    then inl (failure "google.ConfigFromJSON" b) else inr tt;
  Config_AuthCodeURL := fun _ _ => "https://accounts.example/auth";
  Config_Exchange := fun _ code w =>
    (if fail "Config.Exchange" code
     then inl (failure "Config.Exchange" code) else inr tt, w);
  Config_Client := fun _ _ => tt;
  youtube_New := fun _ w =>
    (if fail "youtube.New" EmptyString
     then inl (failure "youtube.New" EmptyString) else inr tt, w);
  Videos_Insert_Media_Do := fun _ _ data _ w =>
    (if fail "Videos.Insert" (youtube.Title (youtube.Snippet data))
     then Some (failure "Videos.Insert" (youtube.Title (youtube.Snippet data)))
     else None, w)
|}.

Definition sampleFlags (doc : Feed.rss) (fail : string -> string -> bool)
    : Flags (sample doc fail) := {|
  rssFeed := "http://x/feed";
  logo := "resources/logo.png";
  font := "resources/Roboto-Light.ttf";
  titleTmpl := fun ep =>
    if fail "Template.Execute" (Title ep)
    then (EmptyString, Some (failure "Template.Execute" (Title ep)))
    else (Title ep ++ ": GCPPodcast " ++ Itoa (Number ep), None);
  foreground := (tt : Color (sample doc fail));
  background := (tt : Color (sample doc fail));
  width := 1280;
  height := 720;
  tags := "podcast,gcppodcast"
|}.

(** Nothing fails. *)
Definition never (op arg : string) : bool := false.

(** The operation [op] fails on [arg], nothing else does. *)
Definition only (op arg : string) (op' arg' : string) : bool :=
  (op' =? op)%string && (arg' =? arg)%string.

Definition demoEpisodes : list episode :=
  map episode_of_item
    [demoItem 1 "one"; demoItem 2 "two"; demoItem 3 "three"; demoItem 5 "five"].

(** * Properties *)

(** ** Sample runs *)

Example parseRange_1 : parseRange "1" = Val (1, 1, None).
Proof. reflexivity. Qed.

Example parseRange_2_10 : parseRange "2-10" = Val (2, 10, None).
Proof. reflexivity. Qed.

Example parseRange_plus : parseRange "+7" = Val (7, 7, None).
Proof. reflexivity. Qed.

Example parseRange_big :
  parseRange "9223372036854775808"
  = Val (maxInt, maxInt,
         Some (ENum {| Func := "Atoi"; Num := "9223372036854775808"; Err := ErrRange |})).
Proof. reflexivity. Qed.

Example Itoa_ex : Itoa 42 = "42" /\ Itoa 0 = "0" /\ Itoa (-7) = "-7".
Proof. repeat split. Qed.

Example Replace_ex :
  Replace ("a" ++ LF ++ "b" ++ LF) LF " " (-1) = "a b ".
Proof. reflexivity. Qed.

Example main_declined :
  main (demoFlags demoFeed) ["3"; "n"]
  = (Ret tt, [],
     [EvHttpGet "http://feeds.feedburner.com/GcpPodcast?format=xml";
      EvXmlDecode; EvBodyClose;
      Stdout "episode number to publish (try 1, or 2-10): "; EvScanln;
      Stdout ("episode 3: three" ++ LF);
      Stdout "publish? (Y/n): "; EvScanln]).
Proof. reflexivity. Qed.



(** ** Splitting and replacing at a single byte *)

Section SingleByte.

Variable c : ascii.
Local Abbreviation sep := (String c EmptyString).

Lemma prefix_empty s : prefix EmptyString s = true.
Proof. destruct s; reflexivity. Qed.

Lemma Index_cons a s :
  Index (String a s) sep
  = if Ascii.eqb c a then Some O else option_map S (Index s sep).
Proof.
  cbn [Index prefix].
  destruct (ascii_dec c a) as [->|Hne].
  - rewrite Ascii.eqb_refl, prefix_empty. reflexivity.
  - apply Ascii.eqb_neq in Hne. rewrite Hne. reflexivity.
Qed.

Lemma Index_empty : Index EmptyString sep = None.
Proof. reflexivity. Qed.

Lemma countByte_app s t :
  countByte c (s ++ t) = (countByte c s + countByte c t)%nat.
Proof.
  induction s as [|a s IH]; cbn; [reflexivity|].
  destruct (Ascii.eqb c a); cbn; rewrite IH; reflexivity.
Qed.

Lemma Index_none s : countByte c s = O -> Index s sep = None.
Proof.
  induction s as [|a s IH]; intros H; [reflexivity|].
  rewrite Index_cons. cbn in H.
  destruct (Ascii.eqb c a); [discriminate|].
  rewrite IH by assumption. reflexivity.
Qed.

Lemma Index_none_inv s : Index s sep = None -> countByte c s = O.
Proof.
  induction s as [|a s IH]; intros H; [reflexivity|].
  rewrite Index_cons in H. cbn.
  destruct (Ascii.eqb c a); [discriminate|].
  destruct (Index s sep); [discriminate|]. now apply IH.
Qed.

Lemma Index_some s m :
  Index s sep = Some m ->
  s = take m s ++ String c (drop (m + 1) s) /\ countByte c (take m s) = O.
Proof.
  revert m. induction s as [|a s IH]; intros m H; [discriminate|].
  rewrite Index_cons in H.
  destruct (Ascii.eqb c a) eqn:E.
  - injection H as <-. apply Ascii.eqb_eq in E. subst a. split; reflexivity.
  - destruct (Index s sep) as [k|]; [|discriminate].
    injection H as <-. destruct (IH k eq_refl) as [Hs Hc].
    cbn. rewrite E. split; [f_equal; exact Hs | exact Hc].
Qed.

Lemma Index_app s t :
  countByte c s = O -> Index (s ++ String c t) sep = Some (String.length s).
Proof.
  induction s as [|a s IH]; intros H.
  - cbn [append]. rewrite Index_cons, Ascii.eqb_refl. reflexivity.
  - cbn [append]. rewrite Index_cons. cbn in H.
    destruct (Ascii.eqb c a); [discriminate|].
    rewrite IH by assumption. reflexivity.
Qed.

Lemma take_app s t : take (String.length s) (s ++ t) = s.
Proof. induction s as [|a s IH]; cbn; [destruct t; reflexivity | now rewrite IH]. Qed.

Lemma drop_app s t : drop (String.length s) (s ++ t) = t.
Proof. induction s as [|a s IH]; cbn; [reflexivity | exact IH]. Qed.

Lemma length_app (s t : string) :
  String.length (s ++ t) = (String.length s + String.length t)%nat.
Proof. induction s as [|a s IH]; cbn; [reflexivity | now rewrite IH]. Qed.

(** Behind the first instance there is one instance less, in a shorter
    string. *)
Lemma Index_some_rest s m :
  Index s sep = Some m ->
  countByte c s = S (countByte c (drop (m + String.length sep) s))
  /\ (String.length (drop (m + String.length sep) s) < String.length s)%nat.
Proof.
  intros H. destruct (Index_some s m H) as [Hs Hc].
  change (String.length sep) with 1%nat.
  set (r := drop (m + 1) s) in *.
  split.
  - rewrite Hs at 1. rewrite countByte_app, Hc. cbn.
    rewrite Ascii.eqb_refl. reflexivity.
  - rewrite Hs at 1. rewrite length_app. cbn. lia.
Qed.

Lemma countLoop_byte fuel s n :
  (String.length s <= fuel)%nat ->
  countLoop fuel s sep n = (n + countByte c s)%nat.
Proof.
  revert s n. induction fuel as [|fuel IH]; intros s n Hlen.
  - destruct s; [cbn; lia | cbn in Hlen; lia].
  - cbn [countLoop]. destruct (Index s sep) as [m|] eqn:E.
    + destruct (Index_some_rest s m E) as [Hc Hl].
      rewrite IH by lia. rewrite Hc. lia.
    + rewrite (Index_none_inv s E). lia.
Qed.

(** [strings.Count] of a single byte counts its occurrences. *)
Lemma Count_byte s : Count s sep = countByte c s.
Proof. unfold Count. rewrite countLoop_byte by lia. reflexivity. Qed.

Lemma genSplit_length rounds s :
  rounds = countByte c s ->
  List.length (genSplit rounds s sep) = S (countByte c s).
Proof.
  revert s. induction rounds as [|rounds IH]; intros s H.
  - rewrite <- H. reflexivity.
  - cbn [genSplit]. destruct (Index s sep) as [m|] eqn:E.
    + destruct (Index_some_rest s m E) as [Hc _].
      cbn [List.length]. rewrite IH by lia. lia.
    + rewrite (Index_none_inv s E) in H. discriminate.
Qed.

(** A string with n instances of the separator splits into n+1 parts. *)
Lemma Split_length s : List.length (Split s sep) = S (countByte c s).
Proof.
  unfold Split. rewrite Count_byte.
  now apply genSplit_length.
Qed.

Lemma Split_none s : countByte c s = O -> Split s sep = [s].
Proof.
  intros H. unfold Split. rewrite Count_byte, H. reflexivity.
Qed.

Lemma Split_one s t :
  countByte c s = O -> countByte c t = O ->
  Split (s ++ String c t) sep = [s; t].
Proof.
  intros Hs Ht. unfold Split.
  rewrite Count_byte, countByte_app, Hs. cbn [countByte].
  rewrite Ascii.eqb_refl, Ht. cbn [Nat.add genSplit].
  rewrite Index_app by assumption. change (String.length sep) with 1%nat.
  replace (String.length s + 1)%nat with (String.length (s ++ String c EmptyString)).
  2:{ rewrite length_app. reflexivity. }
  replace (s ++ String c t) with ((s ++ String c EmptyString) ++ t) at 2.
  2:{ clear. induction s; cbn; [reflexivity | now f_equal]. }
  rewrite drop_app, take_app. reflexivity.
Qed.

(** Joining the parts with the separator gives the string back, and
    no part contains the separator. *)
Lemma genSplit_join rounds s :
  String.concat sep (genSplit rounds s sep) = s.
Proof.
  revert s. induction rounds as [|rounds IH]; intros s; [reflexivity|].
  cbn [genSplit]. destruct (Index s sep) as [m|] eqn:E; [|reflexivity].
  destruct (Index_some s m E) as [Hs _].
  change (String.length sep) with 1%nat.
  specialize (IH (drop (m + 1) s)).
  destruct (genSplit rounds (drop (m + 1) s) sep) as [|p ps] eqn:G.
  - destruct rounds; cbn in G; [discriminate|].
    destruct (Index (drop (m + 1) s) sep); discriminate.
  - cbn [String.concat]. cbn [String.concat] in IH. rewrite IH.
    rewrite Hs at 3. reflexivity.
Qed.

Lemma genSplit_parts rounds s :
  rounds = countByte c s ->
  Forall (fun p => countByte c p = O) (genSplit rounds s sep).
Proof.
  revert s. induction rounds as [|rounds IH]; intros s H.
  - constructor; [now rewrite <- H | constructor].
  - cbn [genSplit]. destruct (Index s sep) as [m|] eqn:E.
    + destruct (Index_some s m E) as [_ Hc].
      destruct (Index_some_rest s m E) as [Hr _].
      constructor; [exact Hc | apply IH; lia].
    + constructor; [now apply Index_none_inv | constructor].
Qed.

Lemma Split_join s : String.concat sep (Split s sep) = s.
Proof. unfold Split. apply genSplit_join. Qed.

Lemma Split_parts s : Forall (fun p => countByte c p = O) (Split s sep).
Proof.
  unfold Split. rewrite Count_byte. now apply genSplit_parts.
Qed.

Variable d : ascii.
Local Abbreviation new := (String d EmptyString).
Local Abbreviation subst := (substByte c d).

Lemma mapBytes_app f s t : mapBytes f (s ++ t) = mapBytes f s ++ mapBytes f t.
Proof. induction s as [|a s IH]; cbn; [reflexivity | now rewrite IH]. Qed.

Lemma mapBytes_none s : countByte c s = O -> mapBytes subst s = s.
Proof.
  induction s as [|a s IH]; intros H; [reflexivity|].
  cbn in *. unfold substByte at 1.
  destruct (Ascii.eqb c a); [discriminate|]. now rewrite IH.
Qed.

Lemma replaceLoop_byte n s :
  n = countByte c s -> replaceLoop n s sep new = mapBytes subst s.
Proof.
  revert s. induction n as [|n IH]; intros s H.
  - cbn. symmetry. now apply mapBytes_none.
  - cbn [replaceLoop]. destruct (Index s sep) as [j|] eqn:E.
    + destruct (Index_some s j E) as [Hs Hc].
      destruct (Index_some_rest s j E) as [Hr _].
      rewrite IH by lia. change (String.length sep) with 1%nat.
      rewrite Hs at 3. rewrite mapBytes_app, (mapBytes_none _ Hc).
      cbn [mapBytes]. unfold substByte at 2. rewrite Ascii.eqb_refl.
      reflexivity.
    + rewrite (Index_none_inv s E) in H. discriminate.
Qed.

(** Replacing every instance of one byte by another is a byte-wise
    substitution. *)
Lemma Replace_byte s :
  c <> d -> Replace s sep new (-1) = mapBytes subst s.
Proof.
  intros Hcd. unfold Replace.
  replace (sep =? new)%string with false.
  2:{ symmetry. apply String.eqb_neq. congruence. }
  cbn [orb Z.eqb]. rewrite Count_byte.
  destruct (Nat.eqb_spec (countByte c s) 0) as [H0|H0].
  - symmetry. now apply mapBytes_none.
  - cbn [Z.ltb Z.compare orb]. now apply replaceLoop_byte.
Qed.

Lemma countByte_subst s : c <> d -> countByte c (mapBytes subst s) = O.
Proof.
  intros Hcd. induction s as [|a s IH]; [reflexivity|].
  cbn. unfold substByte at 1. destruct (Ascii.eqb c a) eqn:E.
  - apply Ascii.eqb_neq in Hcd. now rewrite Hcd.
  - now rewrite E.
Qed.

End SingleByte.

(** ** Reading decimal numerals *)

Lemma maxUint64_eq : maxUint64 = 18446744073709551615.
Proof. reflexivity. Qed.

Lemma maxInt_eq : maxInt = 9223372036854775807.
Proof. reflexivity. Qed.

Lemma isDigit_range c : isDigit c = true -> 0 <= byte_val c - byte_val "0" <= 9.
Proof.
  unfold isDigit. change (byte_val "0") with 48. change (byte_val "9") with 57.
  lia.
Qed.

Lemma isDigit_not_sign c :
  isDigit c = true -> Ascii.eqb c "+" = false /\ Ascii.eqb c "-" = false.
Proof.
  intros H. split.
  - destruct (Ascii.eqb_spec c "+"); [subst; discriminate | reflexivity].
  - destruct (Ascii.eqb_spec c "-"); [subst; discriminate | reflexivity].
Qed.

Lemma decimal_ge s : forall acc, allDigits s = true -> 0 <= acc -> acc <= decimal s acc.
Proof.
  induction s as [|c s IH]; intros acc Hd Hacc; cbn [decimal]; [lia|].
  cbn in Hd. apply andb_prop in Hd as [Hc Hs].
  pose proof (isDigit_range c Hc).
  specialize (IH (acc * 10 + (byte_val c - byte_val "0")) Hs). lia.
Qed.

(** On digits the loop of [ParseUint] computes the number they denote,
    as long as it fits 64 bits. *)
Lemma parseUintLoop_decimal s : forall n,
  allDigits s = true -> 0 <= n -> decimal s n <= maxUint64 ->
  parseUintLoop s n = (decimal s n, None).
Proof.
  induction s as [|c s IH]; intros n Hd Hn Hmax; [reflexivity|].
  cbn in Hd. apply andb_prop in Hd as [Hc Hs].
  pose proof (isDigit_range c Hc) as Hr.
  cbn [parseUintLoop decimal] in *. fold (isDigit c). rewrite Hc.
  set (d := byte_val c - byte_val "0") in *.
  assert (Hle : n * 10 + d <= maxUint64).
  { pose proof (decimal_ge s (n * 10 + d) Hs). lia. }
  rewrite maxUint64_eq in *.
  change (18446744073709551615 / 10 + 1) with 1844674407370955162.
  change (2 ^ 64) with 18446744073709551616.
  destruct (Z.leb_spec 1844674407370955162 n); [lia|].
  rewrite Z.mod_small by lia.
  destruct (Z.ltb_spec (n * 10 + d) (n * 10)); [lia|].
  destruct (Z.ltb_spec 18446744073709551615 (n * 10 + d)); [lia|].
  cbn [orb]. apply IH; [assumption | lia | assumption].
Qed.

(** The loop fails on every string that has a byte other than a digit. *)
Lemma parseUintLoop_syntax s : forall n,
  allDigits s = false -> exists v e, parseUintLoop s n = (v, Some e).
Proof.
  induction s as [|c s IH]; intros n Hd; [discriminate|].
  cbn in Hd. cbn [parseUintLoop]. fold (isDigit c).
  destruct (isDigit c); [|eauto].
  cbn in Hd.
  destruct (maxUint64 / 10 + 1 <=? n); [eauto|].
  destruct (_ || _); [eauto|]. now apply IH.
Qed.

Lemma ParseUint10_syntax s :
  isDigits s = false -> exists v e, ParseUint10 s = (v, Some e).
Proof.
  destruct s as [|c s]; intros H; [cbn; eauto|].
  unfold ParseUint10. now apply parseUintLoop_syntax.
Qed.

Lemma ParseUint10_decimal s :
  isDigits s = true -> decimal s 0 <= maxUint64 ->
  ParseUint10 s = (decimal s 0, None).
Proof.
  destruct s as [|c s]; intros H Hmax; [discriminate|].
  unfold ParseUint10. apply parseUintLoop_decimal; [assumption | lia | assumption].
Qed.

Lemma parseUintLoop_range s : forall n v,
  parseUintLoop s n = (v, Some ErrRange) -> v = maxUint64.
Proof.
  induction s as [|c s IH]; intros n v H; [discriminate|].
  cbn [parseUintLoop] in H.
  destruct (_ && _); [|discriminate].
  destruct (maxUint64 / 10 + 1 <=? n); [congruence|].
  destruct (_ || _); [congruence|]. eapply IH; eassumption.
Qed.

(** [Atoi] reports an error on everything outside its syntax. *)
Lemma Atoi_not_numeric s :
  isNumeric s = false -> exists v e, Atoi s = (v, Some e).
Proof.
  destruct s as [|c s]; intros H; [cbn; eauto|].
  unfold Atoi, ParseInt10. unfold isNumeric in H.
  set (body := if Ascii.eqb c "+" || Ascii.eqb c "-" then s else String c s) in *.
  destruct (ParseUint10_syntax body) as (v & e & E).
  { unfold body. destruct (Ascii.eqb c "+" || Ascii.eqb c "-"); exact H. }
  rewrite E. destruct e; [eauto|].
  assert (v = maxUint64) as ->.
  { destruct body; [discriminate|]. eapply parseUintLoop_range; exact E. }
  destruct (Ascii.eqb c "-"); cbn; eauto.
Qed.

(** What [Atoi] reads without error has its syntax. *)
Lemma Atoi_numeric s n : Atoi s = (n, None) -> isNumeric s = true.
Proof.
  intros H. destruct (isNumeric s) eqn:E; [reflexivity|].
  destruct (Atoi_not_numeric s E) as (v & e & Hv). congruence.
Qed.

(** [Atoi] on digits, bare or behind a sign. *)
Lemma Atoi_digits s :
  isDigits s = true -> decimal s 0 <= maxInt -> Atoi s = (decimal s 0, None).
Proof.
  intros Hd Hmax. destruct s as [|c s]; [discriminate|].
  assert (Hc : isDigit c = true).
  { cbn in Hd. now apply andb_prop in Hd as [Hc _]. }
  destruct (isDigit_not_sign c Hc) as [Hp Hm].
  unfold Atoi, ParseInt10. rewrite Hp, Hm. cbn [orb].
  rewrite maxInt_eq in Hmax.
  rewrite ParseUint10_decimal by (rewrite ?maxUint64_eq; easy || lia).
  change (2 ^ (intSize - 1)) with 9223372036854775808.
  cbn [negb andb].
  destruct (Z.leb_spec 9223372036854775808 (decimal (String c s) 0)); [lia|].
  reflexivity.
Qed.

Lemma Atoi_plus s :
  isDigits s = true -> decimal s 0 <= maxInt ->
  Atoi (String "+" s) = (decimal s 0, None).
Proof.
  intros Hd Hmax. unfold Atoi, ParseInt10. cbn [Ascii.eqb Bool.eqb orb].
  rewrite maxInt_eq in Hmax.
  rewrite ParseUint10_decimal by (rewrite ?maxUint64_eq; easy || lia).
  change (2 ^ (intSize - 1)) with 9223372036854775808.
  cbn [negb andb].
  destruct (Z.leb_spec 9223372036854775808 (decimal s 0)); [lia|].
  reflexivity.
Qed.

Lemma Atoi_minus s :
  isDigits s = true -> decimal s 0 <= - minInt ->
  Atoi (String "-" s) = (- decimal s 0, None).
Proof.
  intros Hd Hmax. unfold Atoi, ParseInt10. cbn [Ascii.eqb Bool.eqb orb].
  change (- minInt) with 9223372036854775808 in Hmax.
  rewrite ParseUint10_decimal by (rewrite ?maxUint64_eq; easy || lia).
  change (2 ^ (intSize - 1)) with 9223372036854775808.
  cbn [negb andb].
  destruct (Z.ltb_spec 9223372036854775808 (decimal s 0)); [lia|].
  reflexivity.
Qed.

Example Atoi_minus5 : Atoi "-5" = (-5, None).
Proof. reflexivity. Qed.

(** ** [parseRange] *)

Lemma index_0 {A} (x : A) xs : index (x :: xs) 0 = Val x.
Proof. reflexivity. Qed.

Lemma index_1 {A} (x y : A) xs : index (x :: y :: xs) 1 = Val y.
Proof. reflexivity. Qed.

(** A token that starts with a minus sign is cut at the sign: its first
    part is empty, and [parseRange] fails. *)
Lemma parseRange_leading_minus s :
  exists e, parseRange (String "-" s) = Val (0, 0, Some e).
Proof.
  unfold parseRange.
  pose proof (Split_length "-" (String "-" s)) as Hlen.
  assert (Hhd : exists ps, Split (String "-" s) "-" = EmptyString :: ps).
  { unfold Split. rewrite Count_byte. cbn [countByte Ascii.eqb Bool.eqb].
    cbn [genSplit]. rewrite Index_cons. cbn [Ascii.eqb Bool.eqb take].
    eauto. }
  destruct Hhd as [ps Hps]. rewrite Hps in *. cbn [List.length] in *.
  destruct ps as [|p1 [|p2 ps]]; cbn in Hlen; [lia| |cbn; eauto].
  rewrite index_0. cbn. eauto.
Qed.

(** A token without a dash is handed to [Atoi] as it is. *)
Lemma parseRange_no_dash s :
  countByte "-" s = O ->
  parseRange s = Val (fst (Atoi s), fst (Atoi s), snd (Atoi s)).
Proof.
  intros Hdash. unfold parseRange.
  rewrite (Split_none "-" s Hdash). cbn [List.length].
  rewrite index_0. cbn [pbind]. destruct (Atoi s). reflexivity.
Qed.

(** C1, as amended: for every token without a minus sign that [Atoi]
    reads as the integer [n] (decimal digits, bare or behind a plus
    sign, within the range of [int]), [parseRange] returns [(n, n, nil)]. *)
Theorem parseRange_single (s : string) (n : Z) :
  Atoi s = (n, None) ->
  countByte "-" s = O ->
  parseRange s = Val (n, n, None).
Proof.
  intros Hn Hdash. rewrite (parseRange_no_dash s Hdash), Hn. reflexivity.
Qed.

Lemma parseRange_single_witness :
  Atoi "+42" = (42, None) /\ countByte "-" "+42" = O
  /\ parseRange "+42" = Val (42, 42, None).
Proof.
  split; [reflexivity|]. split; [reflexivity|].
  apply parseRange_single; reflexivity.
Defined.

(** C1, as stated, fails on a number with a minus sign: ["-5"] is the
    integer -5 for [Atoi], and [parseRange] returns an error for it. *)
Lemma parseRange_single_minus :
  Atoi "-5" = (-5, None)
  /\ parseRange "-5"
     = Val (0, 0, Some (ENum {| Func := "Atoi"; Num := EmptyString; Err := ErrSyntax |}))
  /\ parseRange "-5" <> Val (-5, -5, None).
Proof. repeat split. discriminate. Qed.

(** The numerals of C1 and C2: digits, bare or behind a plus sign, are
    read as the number they denote. *)
Lemma parseRange_digits (ds : string) :
  isDigits ds = true -> decimal ds 0 <= maxInt ->
  parseRange ds = Val (decimal ds 0, decimal ds 0, None)
  /\ parseRange (String "+" ds) = Val (decimal ds 0, decimal ds 0, None).
Proof.
  intros Hd Hmax.
  assert (Hdash : countByte "-" ds = O).
  { assert (H : allDigits ds = true) by (destruct ds; [discriminate | exact Hd]).
    clear - H. induction ds as [|c ds IH]; [reflexivity|].
    cbn in H. apply andb_prop in H as [Hc Hs].
    destruct (isDigit_not_sign c Hc) as [_ Hm]. cbn [countByte].
    rewrite Ascii.eqb_sym, Hm. now apply IH. }
  split.
  - rewrite (parseRange_no_dash ds Hdash), Atoi_digits by assumption.
    reflexivity.
  - rewrite (parseRange_no_dash (String "+" ds)) by exact Hdash.
    rewrite Atoi_plus by assumption. reflexivity.
Qed.

(** C3: a token with more than one dash, or with a part that is not a
    number (digits behind an optional sign), makes [parseRange] return a
    non-nil error. *)
Theorem parseRange_invalid (s : string) :
  (2 <= countByte "-" s)%nat
  \/ Exists (fun p => isNumeric p = false) (Split s "-") ->
  exists first last e, parseRange s = Val (first, last, Some e).
Proof.
  intros H. unfold parseRange.
  pose proof (Split_length "-" s) as Hlen.
  destruct (Split s "-") as [|p0 [|p1 [|p2 ps]]] eqn:E; cbn in Hlen;
    [lia | | | cbn; eauto].
  - (* one part *)
    destruct H as [H|H]; [lia|].
    apply Exists_cons in H as [H|H]; [|inversion H].
    destruct (Atoi_not_numeric p0 H) as (v & e & Hv).
    cbn. rewrite Hv. eauto.
  - (* two parts *)
    destruct H as [H|H]; [lia|].
    cbn. destruct (Atoi p0) as [from [e|]] eqn:E0; [eauto|].
    destruct (Atoi p1) as [to [e|]] eqn:E1; [eauto|].
    exfalso.
    apply Exists_cons in H as [H|H].
    + destruct (Atoi_not_numeric p0 H) as (v & e & Hv). congruence.
    + apply Exists_cons in H as [H|H]; [|inversion H].
      destruct (Atoi_not_numeric p1 H) as (v & e & Hv). congruence.
Qed.

Lemma parseRange_invalid_witness :
  (exists first last e, parseRange "1-2-3" = Val (first, last, Some e))
  /\ (exists first last e, parseRange "abc" = Val (first, last, Some e))
  /\ (exists first last e, parseRange EmptyString = Val (first, last, Some e))
  /\ (exists first last e, parseRange "1-x" = Val (first, last, Some e)).
Proof.
  repeat split.
  - apply parseRange_invalid. left. cbn. lia.
  - apply parseRange_invalid. right. constructor. reflexivity.
  - apply parseRange_invalid. right. constructor. reflexivity.
  - apply parseRange_invalid. right. apply Exists_cons_tl. constructor. reflexivity.
Defined.

(** C10: [parseRange] returns for every string and never panics: a split
    on ["-"] has at least one part (one more than there are dashes), so
    the parts indexed in the cases for one and two parts exist. *)
Theorem parseRange_total (s : string) :
  List.length (Split s "-") = S (countByte "-" s)
  /\ (forall i, (i < List.length (Split s "-"))%nat ->
        exists p, index (Split s "-") i = Val p)
  /\ exists first last err, parseRange s = Val (first, last, err).
Proof.
  split; [apply Split_length|]. split.
  - intros i Hi. unfold index.
    destruct (nth_error (Split s "-") i) eqn:E; [eauto|].
    apply nth_error_None in E. lia.
  - unfold parseRange.
    destruct (Split s "-") as [|p0 [|p1 [|p2 ps]]]; cbn; eauto.
    + destruct (Atoi p0); eauto.
    + destruct (Atoi p0) as [from [e|]]; [eauto|].
      destruct (Atoi p1); eauto.
Qed.

Lemma parseRange_total_witness :
  index (Split "2-10" "-") 1 = Val "10"
  /\ exists p, index (Split "2-10" "-") 1 = Val p.
Proof.
  split; [reflexivity|].
  apply (proj1 (proj2 (parseRange_total "2-10"))). cbn. lia.
Defined.

(** ** [fetchFeed] and the selection loop *)

Section Runs.

Variable P : Platform.
Variable fl : Flags P.

Lemma fetchFeed_trace rss w :
  Forall (fun e => authEvent e = false) (traceOf (@fetchFeed P rss w)).
Proof.
  unfold fetchFeed, bind, defer, call, lift, ret, index, traceOf.
  destruct (http_Get P rss w) as [[err|res] w1]; cbn.
  - repeat constructor.
  - destruct (xml_Decode P res w1) as [[err|data] w2]; cbn.
    + repeat constructor.
    + destruct (Feed.Channel data); cbn; repeat constructor.
Qed.

Lemma selectLoop_run from to eps : forall selected w,
  @selectLoop P from to eps selected w
  = (Ret (selected ++ filter (inRange from to) eps)%list, w,
     map selectedLine (filter (inRange from to) eps)).
Proof.
  induction eps as [|e eps IH]; intros selected w.
  - cbn. rewrite app_nil_r. reflexivity.
  - cbn [selectLoop filter]. fold (inRange from to e).
    destruct (inRange from to e).
    + unfold bind, emit. rewrite IH. cbn [map app].
      rewrite <- app_assoc. reflexivity.
    + apply IH.
Qed.

Lemma filter_Subseq {A} (f : A -> bool) xs : Subseq (filter f xs) xs.
Proof.
  induction xs as [|x xs IH]; cbn; [constructor|].
  destruct (f x); now constructor.
Qed.

Lemma inRange_spec from to e :
  inRange from to e = true <-> from <= Number e <= to.
Proof. unfold inRange. rewrite andb_true_iff, !Z.leb_le. tauto. Qed.

Lemma filter_none from to eps :
  (forall e, In e eps -> ~ from <= Number e <= to) ->
  filter (inRange from to) eps = [].
Proof.
  intros H. induction eps as [|e eps IH]; [reflexivity|].
  cbn. destruct (inRange from to e) eqn:E.
  - apply inRange_spec in E. exfalso. apply (H e); [now left | exact E].
  - apply IH. intros e' He'. apply H. now right.
Qed.

End Runs.

(** C4: when the decoded feed has no channel, [fetchFeed] panics on the
    index 0 of an empty sequence (after the deferred close of the body);
    it returns no error value. *)
Theorem fetchFeed_no_channel (P : Platform) (rss : string) (w w1 w2 : World P)
    (res : Response P) (data : Feed.rss) :
  http_Get P rss w = (inr res, w1) ->
  xml_Decode P res w1 = (inr data, w2) ->
  Feed.Channel data = [] ->
  fetchFeed rss w
  = (Panic (IndexOutOfRange 0 0), Body_Close P res w2,
     [EvHttpGet rss; EvXmlDecode; EvBodyClose])
  /\ forall eps err, outcomeOf (fetchFeed rss w) <> Ret (eps, err).
Proof.
  intros Hget Hdec Hch.
  assert (E : fetchFeed rss w
              = (Panic (IndexOutOfRange 0 0), Body_Close P res w2,
                 [EvHttpGet rss; EvXmlDecode; EvBodyClose])).
  { unfold fetchFeed, bind, defer, call, lift, index.
    rewrite Hget. cbn. rewrite Hdec. cbn. rewrite Hch. reflexivity. }
  split; [exact E|]. intros eps err. rewrite E. discriminate.
Qed.

Lemma fetchFeed_no_channel_witness :
  Feed.Channel emptyFeed = []
  /\ @fetchFeed (demo emptyFeed) "http://x/feed" ["1"]
     = (Panic (IndexOutOfRange 0 0), ["1"],
        [EvHttpGet "http://x/feed"; EvXmlDecode; EvBodyClose]).
Proof.
  split; [reflexivity|].
  apply (fetchFeed_no_channel (demo emptyFeed) "http://x/feed" ["1"] ["1"] ["1"]
           tt emptyFeed); reflexivity.
Defined.

(** With a channel, [fetchFeed] returns the episodes of its first
    channel, in document order. *)
Lemma fetchFeed_channel (P : Platform) (rss : string) (w w1 w2 : World P)
    (res : Response P) (data : Feed.rss) ch chs :
  http_Get P rss w = (inr res, w1) ->
  xml_Decode P res w1 = (inr data, w2) ->
  Feed.Channel data = ch :: chs ->
  fetchFeed rss w
  = (Ret (map episode_of_item (Feed.Item ch), None), Body_Close P res w2,
     [EvHttpGet rss; EvXmlDecode; EvBodyClose]).
Proof.
  intros Hget Hdec Hch.
  unfold fetchFeed, bind, defer, call, lift, index.
  rewrite Hget. cbn. rewrite Hdec. cbn. rewrite Hch. cbn.
  assert (H : forall items acc,
             fold_left (fun eps i => (eps ++ [episode_of_item i])%list) items acc
             = (acc ++ map episode_of_item items)%list).
  { induction items as [|i items IH]; intros acc; cbn.
    - now rewrite app_nil_r.
    - rewrite IH, <- app_assoc. reflexivity. }
  rewrite H. reflexivity.
Qed.

(** C5: the selection loop returns the episodes whose number lies
    between [first] and [last], in feed order, and prints a line for each;
    on the feed numbered 1, 2, 3, 5 the range 2-10 selects 2, 3, 5. *)
Theorem selectLoop_spec (P : Platform) (first last : Z) (eps : list episode)
    (w : World P) :
  let selected := filter (inRange first last) eps in
  selectLoop first last eps [] w = (Ret selected, w, map selectedLine selected)
  /\ (forall e, In e selected <-> In e eps /\ first <= Number e <= last)
  /\ Subseq selected eps
  /\ (parseRange "2-10" = Val (first, last, None) ->
      map Number eps = [1; 2; 3; 5] ->
      map Number selected = [2; 3; 5] /\ selected = tl eps).
Proof.
  intros selected. split; [|split; [|split]].
  - rewrite selectLoop_run. reflexivity.
  - intros e. unfold selected. rewrite filter_In, inRange_spec. tauto.
  - apply filter_Subseq.
  - intros Hr Hn. injection Hr as <- <-.
    destruct eps as [|e1 [|e2 [|e3 [|e5 [|e6 eps]]]]]; try discriminate.
    injection Hn as H1 H2 H3 H5.
    unfold selected. cbn. unfold inRange. rewrite H1, H2, H3, H5. cbn.
    rewrite H2, H3, H5. split; reflexivity.
Qed.

Lemma selectLoop_spec_witness :
  let eps := map episode_of_item
               [demoItem 1 "one"; demoItem 2 "two"; demoItem 3 "three";
                demoItem 5 "five"] in
  parseRange "2-10" = Val (2, 10, None)
  /\ map Number (filter (inRange 2 10) eps) = [2; 3; 5].
Proof.
  intros eps. split; [reflexivity|].
  apply (selectLoop_spec (demo demoFeed) 2 10 eps []); reflexivity.
Defined.

(** C2, as amended: for every pair token [a-b] whose parts carry no
    minus sign and are read by [Atoi] as the integers [n] and [m],
    [parseRange] returns [(n, m, nil)]; nothing requires [n <= m], and
    when [m < n] the selection loop selects nothing and prints nothing,
    without failing. *)
Theorem parseRange_pair (a b : string) (n m : Z) :
  Atoi a = (n, None) ->
  Atoi b = (m, None) ->
  countByte "-" a = O ->
  countByte "-" b = O ->
  parseRange (a ++ "-" ++ b) = Val (n, m, None)
  /\ (m < n ->
      forall (P : Platform) (eps : list episode) (w : World P),
        selectLoop n m eps [] w = (Ret [], w, [])).
Proof.
  intros Ha Hb Hda Hdb. split.
  - unfold parseRange. change ("-" ++ b) with (String "-" b).
    rewrite (Split_one "-" a b Hda Hdb). cbn [List.length].
    rewrite index_0. cbn [pbind]. rewrite Ha.
    rewrite index_1. cbn [pbind]. rewrite Hb. reflexivity.
  - intros Hlt P eps w. rewrite selectLoop_run.
    rewrite filter_none; [reflexivity|]. intros e _. lia.
Qed.

Lemma parseRange_pair_witness :
  parseRange "10-+2" = Val (10, 2, None)
  /\ selectLoop 10 2
       (map episode_of_item [demoItem 1 "one"; demoItem 2 "two"; demoItem 10 "ten"])
       [] (["y"] : World (demo demoFeed))
     = (Ret [], ["y"], []).
Proof.
  destruct (parseRange_pair "10" "+2" 10 2) as [Hr Hs]; try reflexivity.
  split; [exact Hr|]. apply Hs. reflexivity.
Defined.

(** C2, as stated, fails on parts with a minus sign: ["-1"] and ["5"]
    are integers for [Atoi], and [parseRange] rejects ["-1-5"]. *)
Lemma parseRange_pair_minus :
  Atoi "-1" = (-1, None) /\ Atoi "5" = (5, None)
  /\ parseRange "-1-5" = Val (0, 0, Some errFormats)
  /\ parseRange "-1-5" <> Val (-1, 5, None).
Proof. repeat split. discriminate. Qed.

(** ** [main] *)

Lemma authedClient_run (P : Platform) (w : World P) :
  exists r w' t,
    @authedClient P w = (Ret r, w', EvReadFile "client_secrets.json" :: t).
Proof.
  unfold authedClient, Scanln, bind, call, emit, ret.
  destruct (ioutil_ReadFile P _ w) as [[err|b] w1]; cbn; [eauto|].
  destruct (google_ConfigFromJSON P b _) as [err|cfg]; cbn; [eauto|].
  destruct (fmt_Scanln P w1) as [tok w2]; cbn.
  match goal with
  | |- context [Config_Exchange P cfg ?code w2] =>
      destruct (Config_Exchange P cfg code w2) as [[err|token] w3]
  end; cbn; eauto.
Qed.

Lemma selectedLine_trace eps :
  Forall (fun e => authEvent e = false) (map selectedLine eps).
Proof. induction eps; cbn; constructor; auto. Qed.

Ltac run_bind := unfold bind at 1; cbv beta iota.
Ltac norm_app := repeat (cbn [app]; rewrite <- app_assoc); cbn [app].

(** An answer [parseRange] rejects ends the run before any episode is
    selected. *)
Lemma main_invalid_range (P : Platform) (fl : Flags P) (w w1 w2 : World P)
    (eps : list episode) (t1 : list event) (answer : string) (first last : Z)
    (e : error) :
  fetchFeed (rssFeed fl) w = (Ret (eps, None), w1, t1) ->
  Scanln EmptyString w1 = (Ret answer, w2, [EvScanln]) ->
  parseRange answer = Val (first, last, Some e) ->
  main fl w
  = (Exit 1, w2,
     (t1 ++ [Stdout "episode number to publish (try 1, or 2-10): "; EvScanln;
             Stderr (answer ++ " is an invalid range" ++ LF)])%list).
Proof.
  intros Hf Hs Hp.
  unfold main. run_bind. rewrite Hf. cbv beta iota.
  run_bind. unfold emit at 1. cbv beta iota.
  run_bind. rewrite Hs. cbv beta iota.
  run_bind. rewrite Hp. unfold lift at 1. cbv beta iota.
  reflexivity.
Qed.

(** C6: when the feed was fetched, the range was read, and no episode
    has its number in the range, the run prints "no episodes selected"
    on standard error and exits with status 1; nothing of the
    authentication happens. *)
Theorem main_no_episodes (P : Platform) (fl : Flags P) (w w1 w2 : World P)
    (eps : list episode) (t1 : list event) (answer : string) (first last : Z) :
  fetchFeed (rssFeed fl) w = (Ret (eps, None), w1, t1) ->
  Scanln EmptyString w1 = (Ret answer, w2, [EvScanln]) ->
  parseRange answer = Val (first, last, None) ->
  (forall e, In e eps -> ~ first <= Number e <= last) ->
  main fl w
  = (Exit 1, w2,
     (t1 ++ [Stdout "episode number to publish (try 1, or 2-10): "; EvScanln;
             Stderr ("no episodes selected" ++ LF)])%list)
  /\ status (outcomeOf (main fl w)) <> 0
  /\ Forall (fun e => authEvent e = false) (traceOf (main fl w)).
Proof.
  intros Hf Hs Hp Hn.
  assert (E : main fl w
              = (Exit 1, w2,
                 (t1 ++ [Stdout "episode number to publish (try 1, or 2-10): ";
                         EvScanln; Stderr ("no episodes selected" ++ LF)])%list)).
  { unfold main. run_bind. rewrite Hf. cbv beta iota.
    run_bind. unfold emit at 1. cbv beta iota.
    run_bind. rewrite Hs. cbv beta iota.
    run_bind. rewrite Hp. unfold lift at 1. cbv beta iota.
    run_bind. rewrite selectLoop_run, (filter_none _ _ _ Hn).
    reflexivity. }
  rewrite E. split; [reflexivity|]. split; [discriminate|].
  unfold traceOf. cbn [snd]. apply Forall_app. split.
  - pose proof (fetchFeed_trace P (rssFeed fl) w) as Ht.
    rewrite Hf in Ht. exact Ht.
  - repeat constructor.
Qed.

Lemma main_no_episodes_witness :
  main (demoFlags demoFeed) ["6-10"; "y"]
  = (Exit 1, ["y"],
     [EvHttpGet "http://feeds.feedburner.com/GcpPodcast?format=xml";
      EvXmlDecode; EvBodyClose;
      Stdout "episode number to publish (try 1, or 2-10): "; EvScanln;
      Stderr ("no episodes selected" ++ LF)]).
Proof.
  refine (proj1 (main_no_episodes (demo demoFeed) (demoFlags demoFeed)
                   ["6-10"; "y"] ["6-10"; "y"] ["y"]
                   (map episode_of_item
                      [demoItem 1 "one"; demoItem 2 "two"; demoItem 3 "three";
                       demoItem 5 "five"])
                   [EvHttpGet "http://feeds.feedburner.com/GcpPodcast?format=xml";
                    EvXmlDecode; EvBodyClose]
                   "6-10" 6 10 _ _ _ _)); try reflexivity.
  intros e He. cbn in He.
  destruct He as [<-|[<-|[<-|[<-|[]]]]]; cbn; lia.
Defined.

(** C7: once episodes are selected, the answers "Y", "y" and the empty
    one lead to the authentication and, when it succeeds, to the
    processing of the selected episodes; every other answer makes [main]
    return, with exit status 0 and nothing of the authentication. *)
Theorem main_confirm (P : Platform) (fl : Flags P) (w w1 w2 w3 : World P)
    (eps : list episode) (t1 : list event) (range answer : string)
    (first last : Z) :
  fetchFeed (rssFeed fl) w = (Ret (eps, None), w1, t1) ->
  Scanln EmptyString w1 = (Ret range, w2, [EvScanln]) ->
  parseRange range = Val (first, last, None) ->
  (exists e, In e eps /\ first <= Number e <= last) ->
  Scanln EmptyString w2 = (Ret answer, w3, [EvScanln]) ->
  let selected := filter (inRange first last) eps in
  let shown :=
    (t1 ++ [Stdout "episode number to publish (try 1, or 2-10): "; EvScanln]
        ++ map selectedLine selected
        ++ [Stdout "publish? (Y/n): "; EvScanln])%list in
  (answer = "Y" \/ answer = "y" \/ answer = EmptyString ->
     (exists t,
        traceOf (main fl w)
        = (shown ++ EvReadFile "client_secrets.json" :: t)%list)
     /\ forall client w4 t4,
          authedClient w3 = (Ret (client, None), w4, t4) ->
          main fl w = after (shown ++ t4) (processLoop fl client selected w4))
  /\ (~ (answer = "Y" \/ answer = "y" \/ answer = EmptyString) ->
      main fl w = (Ret tt, w3, shown)
      /\ status (outcomeOf (main fl w)) = 0
      /\ Forall (fun e => authEvent e = false) (traceOf (main fl w))).
Proof.
  intros Hf Hr Hp (e0 & He0 & Hin) Ha selected shown.
  assert (Hsel : (List.length selected =? 0)%nat = false).
  { assert (In e0 selected) as Hs.
    { apply filter_In. split; [exact He0 | now apply inRange_spec]. }
    destruct selected; [destruct Hs | reflexivity]. }
  assert (E : main fl w
    = after shown
        ((if negb ((answer =? "Y")%string || (answer =? "y")%string
                   || (answer =? EmptyString)%string)
          then ret tt
          else bind (@authedClient P) (fun x =>
                 match x with
                 | (client, err) =>
                     match err with
                     | Some err =>
                         failf ("could not authenticate with YouTube: "
                                ++ @Error P err ++ LF)
                     | None => processLoop fl client selected
                     end
                 end)) w3)).
  { unfold main. run_bind. rewrite Hf. cbv beta iota.
    run_bind. unfold emit at 1. cbv beta iota.
    run_bind. rewrite Hr. cbv beta iota.
    run_bind. rewrite Hp. unfold lift at 1. cbv beta iota.
    run_bind. rewrite selectLoop_run. cbn [app]. fold selected. rewrite Hsel.
    cbv beta iota.
    run_bind. unfold emit at 1. cbv beta iota.
    run_bind. rewrite Ha. cbv beta iota.
    match goal with |- context [(if ?b then ret tt else ?k) w3] =>
      destruct ((if b then ret tt else k) w3) as [[o w'] t'] end.
    unfold after, outcomeOf, worldOf, traceOf, shown. cbn [fst snd].
    norm_app. reflexivity. }
  split.
  - intros Hyes.
    assert (Hb : negb ((answer =? "Y")%string || (answer =? "y")%string
                       || (answer =? EmptyString)%string) = false).
    { destruct Hyes as [ -> | [ -> | -> ] ]; reflexivity. }
    rewrite Hb in E. split.
    + rewrite E. destruct (authedClient_run P w3) as ([client err] & w4 & t & Hrun).
      unfold bind. rewrite Hrun.
      destruct err as [err|].
      * eexists. unfold after, traceOf, failf, bind, emit, os_Exit. cbn [snd app].
        reflexivity.
      * destruct (processLoop fl client selected w4) as [[o w5] t5].
        eexists. unfold after, traceOf. cbn [snd app]. reflexivity.
    + intros client w4 t4 Hauth. rewrite E. unfold bind. rewrite Hauth.
      destruct (processLoop fl client selected w4) as [[o w5] t5].
      unfold after, outcomeOf, worldOf, traceOf. cbn [fst snd].
      rewrite <- app_assoc. reflexivity.
  - intros Hno.
    assert (Hb : negb ((answer =? "Y")%string || (answer =? "y")%string
                       || (answer =? EmptyString)%string) = true).
    { apply negb_true_iff. apply orb_false_iff. split; [apply orb_false_iff; split|];
        apply String.eqb_neq; intros ->; apply Hno; auto. }
    rewrite Hb in E.
    assert (E' : main fl w = (Ret tt, w3, shown)).
    { rewrite E. unfold after, ret, outcomeOf, worldOf, traceOf. cbn [fst snd].
      rewrite app_nil_r. reflexivity. }
    rewrite E'. split; [reflexivity|]. split; [reflexivity|].
    unfold traceOf, shown. cbn [snd]. apply Forall_app. split.
    + pose proof (fetchFeed_trace P (rssFeed fl) w) as Ht.
      rewrite Hf in Ht. exact Ht.
    + apply Forall_app. split; [repeat constructor|].
      apply Forall_app. split; [apply selectedLine_trace | repeat constructor].
Qed.

Lemma main_confirm_witness :
  (exists t,
     traceOf (main (demoFlags demoFeed) ["3"; EmptyString; "4/code"])
     = ([EvHttpGet "http://feeds.feedburner.com/GcpPodcast?format=xml";
         EvXmlDecode; EvBodyClose;
         Stdout "episode number to publish (try 1, or 2-10): "; EvScanln;
         Stdout ("episode 3: three" ++ LF);
         Stdout "publish? (Y/n): "; EvScanln]
        ++ EvReadFile "client_secrets.json" :: t)%list)
  /\ main (demoFlags demoFeed) ["3"; "no"]
     = (Ret tt, [],
        [EvHttpGet "http://feeds.feedburner.com/GcpPodcast?format=xml";
         EvXmlDecode; EvBodyClose;
         Stdout "episode number to publish (try 1, or 2-10): "; EvScanln;
         Stdout ("episode 3: three" ++ LF);
         Stdout "publish? (Y/n): "; EvScanln]).
Proof.
  set (eps := map episode_of_item
                [demoItem 1 "one"; demoItem 2 "two"; demoItem 3 "three";
                 demoItem 5 "five"]).
  set (t1 := [EvHttpGet "http://feeds.feedburner.com/GcpPodcast?format=xml";
              EvXmlDecode; EvBodyClose]).
  assert (Hin : exists e, In e eps /\ 3 <= Number e <= 3).
  { exists (episode_of_item (demoItem 3 "three")). split; [|cbn; lia].
    right. right. left. reflexivity. }
  split.
  - refine (proj1 (proj1 (main_confirm (demo demoFeed) (demoFlags demoFeed)
              ["3"; EmptyString; "4/code"] ["3"; EmptyString; "4/code"]
              [EmptyString; "4/code"] ["4/code"]
              eps t1 "3" EmptyString 3 3 _ _ _ Hin _) _)); try reflexivity.
    right. right. reflexivity.
  - refine (proj1 (proj2 (main_confirm (demo demoFeed) (demoFlags demoFeed)
              ["3"; "no"] ["3"; "no"] ["no"] []
              eps t1 "3" "no" 3 3 _ _ _ Hin _) _)); try reflexivity.
    intros [H|[H|H]]; discriminate.
Defined.

(** ** [process] *)

Section Traces.
Variable P : Platform.

Lemma in_bind {A B} (m : IO P A) (k : A -> IO P B) w e :
  In e (traceOf (bind m k w)) ->
  In e (traceOf (m w)) \/ exists a w1, In e (traceOf (k a w1)).
Proof.
  unfold bind, traceOf. destruct (m w) as [[[a|c|p] w1] t1]; cbn [snd]; auto.
  destruct (k a w1) as [[o w2] t2] eqn:E. cbn [snd]. intros H.
  apply in_app_or in H as [H|H]; [auto|].
  right. exists a, w1. rewrite E. exact H.
Qed.

Lemma in_defer {A} (cleanup : IO P unit) (body : IO P A) w e :
  In e (traceOf (defer cleanup body w)) ->
  In e (traceOf (body w)) \/ exists w1, In e (traceOf (cleanup w1)).
Proof.
  unfold defer, traceOf. destruct (body w) as [[o w1] t1]. cbn [snd].
  destruct o as [a|c|p]; [ | auto | ];
    (destruct (cleanup w1) as [[[u|c'|p'] w2] t2] eqn:E; cbn [snd];
     intros H;
     (apply in_app_or in H as [H|H];
      [auto | right; exists w1; rewrite E; exact H])).
Qed.

Lemma in_call {A} (e' : event) (op : World P -> A * World P) w e :
  In e (traceOf (call e' op w)) -> e = e'.
Proof.
  unfold call, traceOf. destruct (op w). cbn. intros [H|[]]. now symmetry.
Qed.

Lemma in_emit (e' : event) (w : World P) e :
  In e (traceOf (emit e' w)) -> e = e'.
Proof. cbn. intros [H|[]]. now symmetry. Qed.

Lemma in_ret {A} (a : A) (w : World P) e : In e (traceOf (ret a w)) -> False.
Proof. cbn. auto. Qed.

Ltac trace_inv H :=
  repeat first
    [ apply in_ret in H; destruct H
    | apply in_emit in H
    | apply in_call in H
    | apply in_bind in H as [H | (? & ? & H)]
    | apply in_defer in H as [H | (? & H)]
    | match type of H with
      | In _ (traceOf (match ?x with _ => _ end _)) => destruct x
      end ].

Lemma writePNG_trace path img w part data p :
  ~ In (EvInsert part data p) (traceOf (@writePNG P path img w)).
Proof.
  intros H. unfold writePNG in H. trace_inv H; discriminate.
Qed.

Lemma upload_trace client data path w part data' path' :
  In (EvInsert part data' path') (traceOf (@upload P client data path w)) ->
  part = "snippet,status" /\ data' = data /\ path' = path.
Proof.
  intros H. unfold upload in H. trace_inv H; try discriminate.
  injection H as -> -> ->. auto.
Qed.

Variable fl : Flags P.

Lemma process_trace client ep w part data path :
  In (EvInsert part data path) (traceOf (process fl client ep w)) ->
  part = "snippet,status"
  /\ youtube.Title (youtube.Snippet data) = fst (titleTmpl fl ep)
  /\ youtube.Description (youtube.Snippet data)
     = ("Original post: " ++ Link ep ++ LF ++ LF)
       ++ Replace (bluemonday_StrictPolicy_Sanitize P (Desc ep)) LF " " (-1)
  /\ youtube.Tags (youtube.Snippet data) = (Tags ep ++ Split (tags fl) ",")%list
  /\ youtube.PrivacyStatus (youtube.Status data) = "unlisted".
Proof.
  intros H. unfold process in H.
  apply in_bind in H as [H | (r & w1 & H)]; [trace_inv H; discriminate|].
  destruct r as [err|tmpDir]; [trace_inv H|].
  apply in_defer in H as [H | (? & H)]; [|trace_inv H; discriminate].
  apply in_bind in H as [H | (r & w2 & H)]; [trace_inv H; discriminate|].
  destruct r as [err|img]; [trace_inv H|].
  apply in_bind in H as [H | (r & w3 & H)]; [now apply writePNG_trace in H|].
  destruct r as [err|]; [trace_inv H|].
  apply in_bind in H as [H | (r & w4 & H)].
  { unfold ffmpeg in H. trace_inv H. discriminate. }
  destruct r as [err|]; [trace_inv H|].
  destruct (titleTmpl fl ep) as [buf [err|]] eqn:Et; [trace_inv H|].
  apply in_bind in H as [H | (r & w5 & H)].
  - apply upload_trace in H as (-> & -> & ->). cbn. auto.
  - destruct r; trace_inv H.
Qed.
End Traces.

Arguments process_trace {P} fl client ep w part data path.

(** When the steps before it succeed, [process] calls [upload] with the
    metadata of the episode and the path of the video. *)
Lemma process_uploads (P : Platform) (fl : Flags P)
    (client : option (Client P)) (ep : episode) (w w1 w2 w3 w4 : World P)
    (tmpDir buf : string) (img : Image P) (t3 t4 t5 : list event)
    (w5 w6 : World P) (r rm : option error) :
  let text := Itoa (Number ep) ++ ": " ++ Title ep in
  let slide := filepath_Join P tmpDir "slide.png" in
  let vid := filepath_Join P tmpDir "vid.mp4" in
  let data :=
    {| youtube.Snippet :=
         {| youtube.Title := buf;
            youtube.Description :=
              ("Original post: " ++ Link ep ++ LF ++ LF)
              ++ Replace (bluemonday_StrictPolicy_Sanitize P (Desc ep)) LF " " (-1);
            youtube.Tags := (Tags ep ++ Split (tags fl) ",")%list |};
       youtube.Status := {| youtube.PrivacyStatus := "unlisted" |} |} in
  ioutil_TempDir P EmptyString EmptyString w = (inr tmpDir, w1) ->
  image_Generate P (logo fl) text (font fl) (foreground fl) (background fl)
    (width fl) (height fl) w1 = (inr img, w2) ->
  writePNG slide img w2 = (Ret None, w3, t3) ->
  ffmpeg slide (MP3 ep) vid w3 = (Ret None, w4, t4) ->
  titleTmpl fl ep = (buf, None) ->
  upload client data vid w4 = (Ret r, w5, t5) ->
  os_RemoveAll P tmpDir w5 = (rm, w6) ->
  process fl client ep w
  = (Ret (match r with
          | Some err =>
              Some (ENew ("could not upload to YouTube: " ++ Error P err))
          | None => None
          end),
     w6,
     ([EvTempDir; EvGenerate text (width fl) (height fl)] ++ t3 ++ t4 ++ t5
      ++ EvRemoveAll tmpDir
         :: match rm with
            | Some err =>
                [LogPrintf ("could not remove " ++ tmpDir ++ ": " ++ Error P err)]
            | None => []
            end)%list).
Proof.
  intros text slide vid data Htmp Himg Hpng Hff Htitle Hup Hrm.
  unfold process. run_bind. unfold call at 1. rewrite Htmp. cbv beta iota.
  unfold defer.
  run_bind. unfold call at 1. fold text. rewrite Himg. cbv beta iota.
  run_bind. fold slide. rewrite Hpng. cbv beta iota.
  run_bind. fold vid. rewrite Hff. cbv beta iota.
  rewrite Htitle. cbv beta iota. fold data.
  run_bind. rewrite Hup. cbv beta iota.
  destruct r; cbv [ret bind call emit]; rewrite Hrm; destruct rm;
    norm_app; reflexivity.
Qed.

Lemma append_assoc (s t u : string) : (s ++ t) ++ u = s ++ t ++ u.
Proof. induction s as [|a s IH]; cbn; [reflexivity | now rewrite IH]. Qed.

(** C8: the description of every video [process] uploads is
    "Original post: ", the link, two line feeds, and the sanitized
    description in which every line feed is replaced by one space. *)
Theorem process_description (P : Platform) (fl : Flags P)
    (client : option (Client P)) (ep : episode) (w : World P)
    (part : string) (data : youtube.Video) (path : string) :
  In (EvInsert part data path) (traceOf (process fl client ep w)) ->
  let sanitized := bluemonday_StrictPolicy_Sanitize P (Desc ep) in
  youtube.Description (youtube.Snippet data)
  = "Original post: " ++ Link ep ++ LF ++ LF ++ mapBytes flatten sanitized
  /\ countByte "010" (mapBytes flatten sanitized) = O
  /\ (Link ep = "http://x/1" -> sanitized = "Hello world" ->
      youtube.Description (youtube.Snippet data)
      = "Original post: http://x/1" ++ LF ++ LF ++ "Hello world").
Proof.
  intros H sanitized.
  destruct (process_trace fl client ep w part data path H) as (_ & _ & Hd & _).
  fold sanitized in Hd.
  assert (Hr : Replace sanitized LF " " (-1) = mapBytes flatten sanitized).
  { apply (Replace_byte "010" " "). discriminate. }
  rewrite Hr in Hd. split; [|split].
  - rewrite Hd. change ("Original post: " ++ Link ep ++ LF ++ LF)
      with (String "O" (String "r" (String "i" (String "g" (String "i"
             (String "n" (String "a" (String "l" (String " " (String "p"
             (String "o" (String "s" (String "t" (String ":" (String " "
             (Link ep ++ LF ++ LF)))))))))))))))).
    cbn [append]. rewrite !append_assoc. reflexivity.
  - apply (countByte_subst "010" " "). discriminate.
  - intros Hl Hs. rewrite Hd, Hl, Hs. reflexivity.
Qed.

Lemma demo_upload :
  In (EvInsert "snippet,status" demoVideo "/tmp/1/vid.mp4")
     (traceOf (process (demoFlags demoFeed) None demoEpisode [])).
Proof. vm_compute. do 8 right. left. reflexivity. Defined.

Lemma plain_upload :
  In (EvInsert "snippet,status" demoVideo "/tmp/1/vid.mp4")
     (traceOf (process (demoFlags demoFeed) None plainEpisode [])).
Proof. vm_compute. do 8 right. left. reflexivity. Defined.

Lemma process_description_witness :
  youtube.Description (youtube.Snippet demoVideo)
  = "Original post: " ++ Link demoEpisode ++ LF ++ LF
    ++ mapBytes flatten ("Hello" ++ LF ++ "world")
  /\ youtube.Description (youtube.Snippet demoVideo)
     = "Original post: http://x/1" ++ LF ++ LF ++ "Hello world".
Proof.
  split.
  - exact (proj1 (process_description (demo demoFeed) (demoFlags demoFeed)
             None demoEpisode [] "snippet,status" demoVideo "/tmp/1/vid.mp4"
             demo_upload)).
  - refine (proj2 (proj2 (process_description (demo demoFeed)
             (demoFlags demoFeed) None plainEpisode [] "snippet,status"
             demoVideo "/tmp/1/vid.mp4" plain_upload)) _ _); reflexivity.
Defined.

(** C9: the tags of every video [process] uploads are the categories the
    episode has in the feed, in order, followed by the parts of the
    [-tags] flag between its commas, in order. *)
Theorem process_tags (P : Platform) (fl : Flags P)
    (client : option (Client P)) (i : Feed.item) (w : World P)
    (part : string) (data : youtube.Video) (path : string) :
  In (EvInsert part data path)
     (traceOf (process fl client (episode_of_item i) w)) ->
  let extra := Split (tags fl) "," in
  youtube.Tags (youtube.Snippet data) = (Feed.Category i ++ extra)%list
  /\ String.concat "," extra = tags fl
  /\ Forall (fun tag => countByte "," tag = O) extra
  /\ List.length extra = S (countByte "," (tags fl)).
Proof.
  intros H extra.
  destruct (process_trace fl client _ w part data path H) as (_ & _ & _ & Ht & _).
  split; [exact Ht|]. split; [apply (Split_join ",")|].
  split; [apply (Split_parts ",") | apply (Split_length ",")].
Qed.

Lemma process_tags_witness :
  youtube.Tags (youtube.Snippet demoVideo) = ["cloud"; "podcast"; "gcppodcast"]
  /\ youtube.Tags (youtube.Snippet demoVideo)
     = (Feed.Category (demoItem 1 "one") ++ Split "podcast,gcppodcast" ",")%list.
Proof.
  split; [reflexivity|].
  exact (proj1 (process_tags (demo demoFeed) (demoFlags demoFeed) None
                  (demoItem 1 "one") [] "snippet,status" demoVideo
                  "/tmp/1/vid.mp4" demo_upload)).
Defined.

(** * Further properties of the program *)

(** ** Running computations step by step *)

Lemma call_run (P : Platform) {A} (e : event) (op : World P -> A * World P)
    w a w1 :
  op w = (a, w1) -> call e op w = (Ret a, w1, [e]).
Proof. intros H. unfold call. rewrite H. reflexivity. Qed.

Lemma bind_run (P : Platform) {A B} (m : IO P A) (k : A -> IO P B) w a w1 t1 :
  m w = (Ret a, w1, t1) -> bind m k w = after t1 (k a w1).
Proof.
  intros H. unfold bind. rewrite H. destruct (k a w1) as [[o w2] t2].
  reflexivity.
Qed.

Lemma defer_run (P : Platform) {A} (cleanup : IO P unit) (body : IO P A)
    w a w1 t1 w2 t2 :
  body w = (Ret a, w1, t1) -> cleanup w1 = (Ret tt, w2, t2) ->
  defer cleanup body w = (Ret a, w2, (t1 ++ t2)%list).
Proof. intros Hb Hc. unfold defer. rewrite Hb, Hc. reflexivity. Qed.

Lemma after_nil {A W} (r : outcome A * W * list event) : after [] r = r.
Proof. destruct r as [[o w] t]. reflexivity. Qed.

Lemma after_after {A W} t1 t2 (r : outcome A * W * list event) :
  after t1 (after t2 r) = after (t1 ++ t2) r.
Proof.
  destruct r as [[o w] t]. unfold after, outcomeOf, worldOf, traceOf.
  cbn [fst snd]. now rewrite app_assoc.
Qed.


(** ** Computations that return *)

Section Returns.
Variable P : Platform.

Lemma returns_ret {A} (a : A) : returns (@ret P A a).
Proof. intros w. unfold ret. eauto. Qed.

Lemma returns_emit (e : event) : returns (@emit P e).
Proof. intros w. unfold emit. eauto. Qed.

Lemma returns_call {A} (e : event) (op : World P -> A * World P) :
  returns (call e op).
Proof. intros w. unfold call. destruct (op w). eauto. Qed.

Lemma returns_bind {A B} (m : IO P A) (k : A -> IO P B) :
  returns m -> (forall a, returns (k a)) -> returns (bind m k).
Proof.
  intros Hm Hk w. destruct (Hm w) as (a & w1 & t1 & E1).
  destruct (Hk a w1) as (b & w2 & t2 & E2).
  unfold bind. rewrite E1, E2. eauto.
Qed.

Lemma returns_defer {A} (cleanup : IO P unit) (body : IO P A) :
  returns cleanup -> returns body -> returns (defer cleanup body).
Proof.
  intros Hc Hb w. destruct (Hb w) as (a & w1 & t1 & E1).
  destruct (Hc w1) as (u & w2 & t2 & E2).
  unfold defer. rewrite E1, E2. eauto.
Qed.

Ltac returns_tac :=
  repeat first
    [ apply returns_ret
    | apply returns_emit
    | apply returns_call
    | apply returns_bind
    | apply returns_defer
    | progress cbv beta
    | match goal with
      | |- forall _, returns _ => intro
      | |- returns (match ?x with _ => _ end) => destruct x
      end ].


Lemma writePNG_returns path img : returns (@writePNG P path img).
Proof. unfold writePNG. returns_tac. Qed.

Lemma ffmpeg_returns img mp3 vid : returns (@ffmpeg P img mp3 vid).
Proof. unfold ffmpeg. returns_tac. Qed.

Lemma upload_returns client data path : returns (@upload P client data path).
Proof. unfold upload. returns_tac. Qed.


End Returns.

(** ** [fetchFeed] *)

(** X1: once [http.Get] has returned a response, [fetchFeed] always
    closes its body, once and after the decoding, whether the decoding
    fails, the feed has no channel, or the episodes are returned. *)
Theorem fetchFeed_closes_body (P : Platform) (rss : string) (w w1 : World P)
    (res : Response P) :
  http_Get P rss w = (inr res, w1) ->
  exists o,
    fetchFeed rss w
    = (o, Body_Close P res (snd (xml_Decode P res w1)),
       [EvHttpGet rss; EvXmlDecode; EvBodyClose]).
Proof.
  intros Hget. unfold fetchFeed, bind, defer, call, lift, index.
  rewrite Hget. cbn. destruct (xml_Decode P res w1) as [[err|data] w2]; cbn.
  - eauto.
  - destruct (Feed.Channel data); cbn; eauto.
Qed.

Lemma fetchFeed_closes_body_witness :
  exists o,
    @fetchFeed (sample demoFeed (only "xml.Decode" EmptyString)) "http://x/feed" []
    = (o, [], [EvHttpGet "http://x/feed"; EvXmlDecode; EvBodyClose]).
Proof.
  apply (fetchFeed_closes_body (sample demoFeed (only "xml.Decode" EmptyString))
           "http://x/feed" [] [] tt).
  reflexivity.
Defined.

(** X2: [fetchFeed] returns the items of the first channel only, as many
    episodes as it has items and in their order; an episode takes its
    link from the guid, its MP3 from the URL of the enclosure and its
    tags from the categories of the item. *)
Theorem fetchFeed_first_channel (P : Platform) (rss : string)
    (w w1 w2 : World P) (res : Response P) (data : Feed.rss)
    (ch : Feed.channel) (chs : list Feed.channel) :
  http_Get P rss w = (inr res, w1) ->
  xml_Decode P res w1 = (inr data, w2) ->
  Feed.Channel data = ch :: chs ->
  exists eps,
    fetchFeed rss w
    = (Ret (eps, None), Body_Close P res w2,
       [EvHttpGet rss; EvXmlDecode; EvBodyClose])
    /\ List.length eps = List.length (Feed.Item ch)
    /\ forall k i,
         nth_error (Feed.Item ch) k = Some i ->
         nth_error eps k
         = Some {| Title := Feed.Title i; Number := Feed.Number i;
                   Link := Feed.Link i; Desc := Feed.Desc i;
                   MP3 := Feed.MP3_URL i; Tags := Feed.Category i |}.
Proof.
  intros Hget Hdec Hch. exists (map episode_of_item (Feed.Item ch)).
  split; [exact (fetchFeed_channel P rss w w1 w2 res data ch chs Hget Hdec Hch)|].
  split; [apply length_map|].
  intros k i Hk. rewrite nth_error_map, Hk. reflexivity.
Qed.

Lemma fetchFeed_first_channel_witness :
  exists eps,
    @fetchFeed (sample demoFeed never) "http://x/feed" []
    = (Ret (eps, None), [], [EvHttpGet "http://x/feed"; EvXmlDecode; EvBodyClose])
    /\ List.length eps = 4%nat.
Proof.
  destruct (fetchFeed_first_channel (sample demoFeed never) "http://x/feed"
              [] [] [] tt demoFeed
              {| Feed.Item := [demoItem 1 "one"; demoItem 2 "two";
                               demoItem 3 "three"; demoItem 5 "five"] |} [])
    as (eps & E & Hlen & _); try reflexivity.
  exists eps. split; [exact E | exact Hlen].
Defined.

(** ** Fatal errors of [main] *)

(** X3: when the feed cannot be fetched, [main] prints
    "could not get <url>: <error>" on standard error and exits with
    status 1; it prompts for nothing and reads nothing. *)
Theorem main_get_error (P : Platform) (fl : Flags P) (w w1 : World P)
    (err : error) :
  http_Get P (rssFeed fl) w = (inl err, w1) ->
  main fl w
  = (Exit 1, w1,
     [EvHttpGet (rssFeed fl);
      Stderr ("could not get " ++ rssFeed fl ++ ": " ++ Error P err ++ LF)]).
Proof.
  intros Hget. unfold main. run_bind.
  unfold fetchFeed. run_bind. rewrite (call_run P _ _ _ _ _ Hget).
  cbn [ret app]. unfold failf, bind, emit, os_Exit. cbn [app Error].
  rewrite !append_assoc. reflexivity.
Qed.

Lemma main_get_error_witness :
  main (sampleFlags demoFeed (only "http.Get" "http://x/feed")) ["3"; "y"]
  = (Exit 1, ["3"; "y"],
     [EvHttpGet "http://x/feed";
      Stderr ("could not get http://x/feed: http.Get http://x/feed: failed"
              ++ LF)]).
Proof.
  apply (main_get_error (sample demoFeed (only "http.Get" "http://x/feed"))
           (sampleFlags demoFeed (only "http.Get" "http://x/feed"))
           ["3"; "y"] ["3"; "y"] (failure "http.Get" "http://x/feed")).
  reflexivity.
Defined.

(** X4: when the feed cannot be decoded, [main] closes the body of the
    response, prints "could not decode feed: <error>" on standard error
    and exits with status 1, before any prompt. *)
Theorem main_decode_error (P : Platform) (fl : Flags P) (w w1 w2 : World P)
    (res : Response P) (err : error) :
  http_Get P (rssFeed fl) w = (inr res, w1) ->
  xml_Decode P res w1 = (inl err, w2) ->
  main fl w
  = (Exit 1, Body_Close P res w2,
     [EvHttpGet (rssFeed fl); EvXmlDecode; EvBodyClose;
      Stderr ("could not decode feed: " ++ Error P err ++ LF)]).
Proof.
  intros Hget Hdec. unfold main. run_bind.
  unfold fetchFeed. run_bind. rewrite (call_run P _ _ _ _ _ Hget).
  cbv beta iota. unfold defer. run_bind.
  rewrite (call_run P _ _ _ _ _ Hdec). cbn [ret app call].
  unfold failf, bind, emit, os_Exit. cbn [app Error].
  rewrite !append_assoc. reflexivity.
Qed.

Lemma main_decode_error_witness :
  main (sampleFlags demoFeed (only "xml.Decode" EmptyString)) ["3"; "y"]
  = (Exit 1, ["3"; "y"],
     [EvHttpGet "http://x/feed"; EvXmlDecode; EvBodyClose;
      Stderr ("could not decode feed: xml.Decode : failed" ++ LF)]).
Proof.
  apply (main_decode_error (sample demoFeed (only "xml.Decode" EmptyString))
           (sampleFlags demoFeed (only "xml.Decode" EmptyString))
           ["3"; "y"] ["3"; "y"] ["3"; "y"] tt (failure "xml.Decode" EmptyString));
    reflexivity.
Defined.

(** The run of [main] up to the answer to "publish?", when episodes are
    selected. *)
Lemma main_to_confirm (P : Platform) (fl : Flags P) (w w1 w2 w3 : World P)
    (eps : list episode) (t1 : list event) (range answer : string)
    (first last : Z) :
  fetchFeed (rssFeed fl) w = (Ret (eps, None), w1, t1) ->
  Scanln EmptyString w1 = (Ret range, w2, [EvScanln]) ->
  parseRange range = Val (first, last, None) ->
  filter (inRange first last) eps <> [] ->
  Scanln EmptyString w2 = (Ret answer, w3, [EvScanln]) ->
  main fl w
  = after
      (t1 ++ [Stdout "episode number to publish (try 1, or 2-10): "; EvScanln]
          ++ map selectedLine (filter (inRange first last) eps)
          ++ [Stdout "publish? (Y/n): "; EvScanln])
      ((if negb ((answer =? "Y")%string || (answer =? "y")%string
                 || (answer =? EmptyString)%string)
        then ret tt
        else bind (@authedClient P) (fun x =>
               match x with
               | (client, err) =>
                   match err with
                   | Some err =>
                       failf ("could not authenticate with YouTube: "
                              ++ Error P err ++ LF)
                   | None =>
                       processLoop fl client (filter (inRange first last) eps)
                   end
               end)) w3).
Proof.
  intros Hf Hr Hp Hne Ha.
  assert (Hsel : (List.length (filter (inRange first last) eps) =? 0)%nat = false).
  { destruct (filter (inRange first last) eps); [congruence | reflexivity]. }
  unfold main. run_bind. rewrite Hf. cbv beta iota.
  run_bind. unfold emit at 1. cbv beta iota.
  run_bind. rewrite Hr. cbv beta iota.
  run_bind. rewrite Hp. unfold lift at 1. cbv beta iota.
  run_bind. rewrite selectLoop_run. cbn [app]. rewrite Hsel.
  cbv beta iota.
  run_bind. unfold emit at 1. cbv beta iota.
  run_bind. rewrite Ha. cbv beta iota.
  match goal with |- context [(if ?b then ret tt else ?k) w3] =>
    destruct ((if b then ret tt else k) w3) as [[o w'] t'] end.
  unfold after, outcomeOf, worldOf, traceOf. cbn [fst snd].
  norm_app. reflexivity.
Qed.

(** X5: an answer to the range prompt that [parseRange] rejects makes
    [main] print "<answer> is an invalid range" on standard error, with
    the answer as typed and not the error of the parser, and exit with
    status 1 before it selects anything. *)
Theorem main_range_error (P : Platform) (fl : Flags P) (w w1 w2 : World P)
    (eps : list episode) (t1 : list event) (answer : string) (first last : Z)
    (e : error) :
  fetchFeed (rssFeed fl) w = (Ret (eps, None), w1, t1) ->
  Scanln EmptyString w1 = (Ret answer, w2, [EvScanln]) ->
  parseRange answer = Val (first, last, Some e) ->
  main fl w
  = (Exit 1, w2,
     (t1 ++ [Stdout "episode number to publish (try 1, or 2-10): "; EvScanln;
             Stderr (answer ++ " is an invalid range" ++ LF)])%list)
  /\ status (outcomeOf (main fl w)) = 1.
Proof.
  intros Hf Hs Hp.
  pose proof (main_invalid_range P fl w w1 w2 eps t1 answer first last e
                Hf Hs Hp) as E.
  rewrite E. split; reflexivity.
Qed.

Lemma main_range_error_witness :
  main (sampleFlags demoFeed never) ["3-"; "y"]
  = (Exit 1, ["y"],
     [EvHttpGet "http://x/feed"; EvXmlDecode; EvBodyClose;
      Stdout "episode number to publish (try 1, or 2-10): "; EvScanln;
      Stderr ("3- is an invalid range" ++ LF)]).
Proof.
  refine (proj1 (main_range_error (sample demoFeed never)
            (sampleFlags demoFeed never) ["3-"; "y"] ["3-"; "y"] ["y"]
            demoEpisodes [EvHttpGet "http://x/feed"; EvXmlDecode; EvBodyClose]
            "3-" 3 0
            (ENum {| Func := "Atoi"; Num := EmptyString; Err := ErrSyntax |})
            _ _ _)); reflexivity.
Defined.

(** X6: when the authentication fails after a confirmed selection,
    [main] prints "could not authenticate with YouTube: <error>" on
    standard error and exits with status 1; no episode is processed. *)
Theorem main_auth_error (P : Platform) (fl : Flags P) (w w1 w2 w3 w4 : World P)
    (eps : list episode) (t1 t4 : list event) (range answer : string)
    (first last : Z) (client : option (Client P)) (err : error) :
  fetchFeed (rssFeed fl) w = (Ret (eps, None), w1, t1) ->
  Scanln EmptyString w1 = (Ret range, w2, [EvScanln]) ->
  parseRange range = Val (first, last, None) ->
  filter (inRange first last) eps <> [] ->
  Scanln EmptyString w2 = (Ret answer, w3, [EvScanln]) ->
  answer = "Y" \/ answer = "y" \/ answer = EmptyString ->
  authedClient w3 = (Ret (client, Some err), w4, t4) ->
  main fl w
  = (Exit 1, w4,
     (t1 ++ [Stdout "episode number to publish (try 1, or 2-10): "; EvScanln]
         ++ map selectedLine (filter (inRange first last) eps)
         ++ [Stdout "publish? (Y/n): "; EvScanln]
         ++ t4
         ++ [Stderr ("could not authenticate with YouTube: "
                     ++ Error P err ++ LF)])%list).
Proof.
  intros Hf Hr Hp Hne Ha Hyes Hauth.
  rewrite (main_to_confirm P fl w w1 w2 w3 eps t1 range answer first last
             Hf Hr Hp Hne Ha).
  assert (Hb : negb ((answer =? "Y")%string || (answer =? "y")%string
                     || (answer =? EmptyString)%string) = false).
  { destruct Hyes as [ -> | [ -> | -> ] ]; reflexivity. }
  rewrite Hb. rewrite (bind_run P _ _ _ _ _ _ Hauth). cbv beta iota.
  unfold failf, bind, emit, os_Exit, after, outcomeOf, worldOf, traceOf.
  cbn [fst snd]. norm_app. reflexivity.
Qed.

Lemma main_auth_error_witness :
  main (sampleFlags demoFeed (only "Config.Exchange" "4/code"))
    ["3"; "y"; "4/code"]
  = (Exit 1, [],
     [EvHttpGet "http://x/feed"; EvXmlDecode; EvBodyClose;
      Stdout "episode number to publish (try 1, or 2-10): "; EvScanln;
      Stdout ("episode 3: three" ++ LF);
      Stdout "publish? (Y/n): "; EvScanln;
      EvReadFile "client_secrets.json";
      Stdout ("Go here: " ++ LF ++ TAB ++ "https://accounts.example/auth" ++ LF);
      Stdout "Then enter the code: "; EvScanln; EvExchange "4/code";
      Stderr ("could not authenticate with YouTube: "
              ++ "Config.Exchange 4/code: failed" ++ LF)]).
Proof.
  refine (main_auth_error (sample demoFeed (only "Config.Exchange" "4/code"))
            (sampleFlags demoFeed (only "Config.Exchange" "4/code"))
            ["3"; "y"; "4/code"] ["3"; "y"; "4/code"] ["y"; "4/code"]
            ["4/code"] []
            demoEpisodes [EvHttpGet "http://x/feed"; EvXmlDecode; EvBodyClose]
            [EvReadFile "client_secrets.json";
             Stdout ("Go here: " ++ LF ++ TAB ++ "https://accounts.example/auth"
                     ++ LF);
             Stdout "Then enter the code: "; EvScanln; EvExchange "4/code"]
            "3" "y" 3 3 None (failure "Config.Exchange" "4/code")
            _ _ _ _ _ _ _); try reflexivity.
  - discriminate.
  - right. left. reflexivity.
Defined.

(** ** [writePNG], [upload] and [authedClient] *)

(** X7: [writePNG] returns no error exactly when the file was created,
    the image encoded into it and the file closed, in this order; the
    file is closed in no other case. *)
Theorem writePNG_ok (P : Platform) (path : string) (img : Image P)
    (w w' : World P) (t : list event) (r : option error) :
  writePNG path img w = (Ret r, w', t) ->
  (r = None <->
   exists f w1 w2,
     os_Create P path w = (inr f, w1)
     /\ png_Encode P f img w1 = (None, w2)
     /\ File_Close P f w2 = (None, w'))
  /\ (In EvFileClose t <->
      exists f w1 w2,
        os_Create P path w = (inr f, w1) /\ png_Encode P f img w1 = (None, w2)).
Proof.
  unfold writePNG, bind, call, ret.
  destruct (os_Create P path w) as [[err|f] w1]; cbn.
  - intros H. injection H as <- <- <-. split; split.
    + discriminate.
    + intros (f & x1 & x2 & H & _). discriminate.
    + cbn. intros [H|[]]. discriminate.
    + intros (f & x1 & x2 & H & _). discriminate.
  - destruct (png_Encode P f img w1) as [[err|] w2] eqn:Eenc; cbn.
    + intros H. injection H as <- <- <-. split; split.
      * discriminate.
      * intros (f' & x1 & x2 & H & H' & _). congruence.
      * cbn. intros [H|[H|[]]]; discriminate.
      * intros (f' & x1 & x2 & H & H'). congruence.
    + destruct (File_Close P f w2) as [[err|] w3] eqn:Ecl; cbn;
        intros H; injection H as <- <- <-; (split; split).
      * discriminate.
      * intros (f' & x1 & x2 & H & H' & H''). congruence.
      * intros _. eauto.
      * intros _. cbn. auto.
      * intros _. exists f, w1, w2. rewrite Ecl. auto.
      * reflexivity.
      * intros _. eauto.
      * intros _. cbn. auto.
Qed.

Lemma writePNG_ok_witness :
  (exists f w1 w2,
     os_Create (sample demoFeed never) "/tmp/1/slide.png" [] = (inr f, w1)
     /\ png_Encode (sample demoFeed never) f tt w1 = (None, w2)
     /\ File_Close (sample demoFeed never) f w2 = (None, []))
  /\ ~ In EvFileClose
         (traceOf (@writePNG (sample demoFeed (only "png.Encode" "/tmp/1/slide.png"))
                     "/tmp/1/slide.png" tt [])).
Proof.
  split.
  - apply (proj1 (writePNG_ok (sample demoFeed never) "/tmp/1/slide.png" tt
                    [] [] [EvCreate "/tmp/1/slide.png"; EvPngEncode; EvFileClose]
                    None eq_refl)).
    reflexivity.
  - intros H.
    apply (proj2 (writePNG_ok
                    (sample demoFeed (only "png.Encode" "/tmp/1/slide.png"))
                    "/tmp/1/slide.png" tt [] []
                    [EvCreate "/tmp/1/slide.png"; EvPngEncode]
                    (Some (ENew ("could not encode to /tmp/1/slide.png: "
                                 ++ "png.Encode /tmp/1/slide.png: failed")))
                    eq_refl)) in H.
    destruct H as (f & w1 & w2 & H1 & H2).
    injection H1 as <- <-. discriminate.
Defined.

(** X8: when the YouTube service is created and the video file opened,
    [upload] makes one insert call for the parts snippet and status,
    closes the file after it and returns the error of the call as it is,
    whatever closing the file gives. *)
Theorem upload_run (P : Platform) (client : option (Client P))
    (data : youtube.Video) (path : string) (w w1 w2 w3 : World P)
    (service : Service P) (f : File P) (r : option error) :
  youtube_New P client w = (inr service, w1) ->
  os_Open P path w1 = (inr f, w2) ->
  Videos_Insert_Media_Do P service "snippet,status" data f w2 = (r, w3) ->
  upload client data path w
  = (Ret r, snd (File_Close P f w3),
     [EvYoutubeNew; EvOpen path; EvInsert "snippet,status" data path;
      EvFileClose]).
Proof.
  intros Hnew Hopen Hins. unfold upload, bind, defer, call, ret.
  rewrite Hnew. cbn. rewrite Hopen. cbn. rewrite Hins.
  destruct (File_Close P f w3) as [e w4]. reflexivity.
Qed.

Lemma upload_run_witness :
  @upload (sample demoFeed (only "Videos.Insert" "one: GCPPodcast 1"))
    None demoVideo "/tmp/1/vid.mp4" []
  = (Ret (Some (failure "Videos.Insert" "one: GCPPodcast 1")), [],
     [EvYoutubeNew; EvOpen "/tmp/1/vid.mp4";
      EvInsert "snippet,status" demoVideo "/tmp/1/vid.mp4"; EvFileClose]).
Proof.
  apply (upload_run (sample demoFeed (only "Videos.Insert" "one: GCPPodcast 1"))
           None demoVideo "/tmp/1/vid.mp4" [] [] [] [] tt "/tmp/1/vid.mp4");
    reflexivity.
Defined.

(** X9: [authedClient] always returns, and it returns a client exactly
    when it returns no error; it starts by reading client_secrets.json,
    and exchanges a code only after it has read one from standard
    input. *)
Theorem authedClient_result (P : Platform) (w : World P) :
  exists client err w' t,
    authedClient w = (Ret (client, err), w', EvReadFile "client_secrets.json" :: t)
    /\ (client = None <-> err <> None)
    /\ (forall code, In (EvExchange code) t ->
        exists t1 t2, t = (t1 ++ EvScanln :: EvExchange code :: t2)%list).
Proof.
  unfold authedClient, Scanln, bind, call, emit, ret.
  destruct (ioutil_ReadFile P _ w) as [[err|b] w1]; cbn.
  { do 4 eexists. split; [reflexivity|]. split; [split; congruence|].
    intros code []. }
  destruct (google_ConfigFromJSON P b _) as [err|cfg]; cbn.
  { do 4 eexists. split; [reflexivity|]. split; [split; congruence|].
    intros code []. }
  destruct (fmt_Scanln P w1) as [tok w2]; cbn.
  match goal with
  | |- context [Config_Exchange P cfg ?code w2] =>
      destruct (Config_Exchange P cfg code w2) as [[err|token] w3]
  end; cbn.
  - do 4 eexists. split; [reflexivity|]. split; [split; congruence|].
    intros code [H|[H|[H|[H|[]]]]]; try discriminate.
    injection H as <-.
    eexists [_; _], []. reflexivity.
  - do 4 eexists. split; [reflexivity|]. split; [split; congruence|].
    intros code [H|[H|[H|[H|[]]]]]; try discriminate.
    injection H as <-.
    eexists [_; _], []. reflexivity.
Qed.

(** ** [process] *)

Lemma in_bind_run (P : Platform) {A B} (m : IO P A) (k : A -> IO P B)
    w o w1 t1 e :
  m w = (o, w1, t1) ->
  In e (traceOf (bind m k w)) ->
  In e t1 \/ exists a, o = Ret a /\ In e (traceOf (k a w1)).
Proof.
  intros Hm. unfold bind, traceOf. rewrite Hm.
  destruct o as [a|c|p]; cbn [snd]; auto.
  destruct (k a w1) as [[o2 w2] t2] eqn:Ek. cbn [snd]. intros H.
  apply in_app_or in H as [H|H]; [left; exact H|].
  right. exists a. rewrite Ek. split; [reflexivity | exact H].
Qed.

Ltac trace_cases H :=
  repeat first
    [ apply in_ret in H; destruct H
    | apply in_emit in H
    | apply in_call in H
    | apply in_bind in H as [H | (? & ? & H)]
    | apply in_defer in H as [H | (? & H)]
    | progress unfold writePNG in H
    | progress unfold ffmpeg in H
    | progress unfold upload in H
    | match type of H with
      | In _ (traceOf (match ?x with _ => _ end _)) => destruct x
      end ].

(** X10: [process] never exits the process and never panics: every
    failure of a step comes back as its error.  When the temporary
    directory cannot be created nothing else is attempted; once it is
    created, its removal is the last operation of [process] on every
    path, it happens once, and a failure of the removal is only
    logged. *)
Theorem process_cleanup (P : Platform) (fl : Flags P)
    (client : option (Client P)) (ep : episode) (w : World P) :
  match ioutil_TempDir P EmptyString EmptyString w with
  | (inl err, w1) =>
      process fl client ep w
      = (Ret (Some (ENew ("could not create temp directory: " ++ Error P err))),
         w1, [EvTempDir])
  | (inr tmpDir, w1) =>
      exists r w2 t,
        process fl client ep w
        = (Ret r, snd (os_RemoveAll P tmpDir w2),
           (EvTempDir :: t
            ++ removal P tmpDir (fst (os_RemoveAll P tmpDir w2)))%list)
        /\ forall dir, ~ In (EvRemoveAll dir) t
  end.
Proof.
  destruct (ioutil_TempDir P EmptyString EmptyString w) as [[err|tmpDir] w1]
    eqn:Htmp.
  - unfold process. rewrite (bind_run P _ _ _ _ _ _ (call_run P _ _ _ _ _ Htmp)).
    reflexivity.
  - unfold process. rewrite (bind_run P _ _ _ _ _ _ (call_run P _ _ _ _ _ Htmp)).
    cbv beta iota.
    match goal with
    | |- context [defer ?c ?b w1] =>
        assert (Hb : returns b);
        [ | assert (Ht : forall w0 dir, ~ In (EvRemoveAll dir) (traceOf (b w0)));
            [ | destruct (Hb w1) as (r & w2 & t & Eb);
                specialize (Ht w1); rewrite Eb in Ht;
                exists r, w2, t; split; [ | exact Ht];
                unfold defer; rewrite Eb ] ]
    end.
    + repeat first
        [ apply writePNG_returns | apply ffmpeg_returns | apply upload_returns
        | apply returns_ret | apply returns_call | apply returns_bind
        | progress cbv beta zeta
        | match goal with
          | |- forall _, returns _ => intro
          | |- returns (match ?x with _ => _ end) => destruct x
          end ].
    + intros w0 dir H. trace_cases H; discriminate.
    + unfold bind, call, removal.
      destruct (os_RemoveAll P tmpDir w2) as [[rm|] w3]; reflexivity.
Qed.

(** X11: [process] uploads a video only after the directory was created,
    the slide generated and written, the encoder run without error on
    the slide and the MP3 of the episode, and the title rendered; the
    file it uploads is vid.mp4 in the temporary directory. *)
Theorem process_upload_requires (P : Platform) (fl : Flags P)
    (client : option (Client P)) (ep : episode) (w : World P)
    (part : string) (data : youtube.Video) (path : string) :
  In (EvInsert part data path) (traceOf (process fl client ep w)) ->
  exists tmpDir img buf w1 w2 w3 w4 t3 t4,
    ioutil_TempDir P EmptyString EmptyString w = (inr tmpDir, w1)
    /\ image_Generate P (logo fl) (Itoa (Number ep) ++ ": " ++ Title ep)
         (font fl) (foreground fl) (background fl) (width fl) (height fl) w1
       = (inr img, w2)
    /\ writePNG (filepath_Join P tmpDir "slide.png") img w2 = (Ret None, w3, t3)
    /\ ffmpeg (filepath_Join P tmpDir "slide.png") (MP3 ep)
         (filepath_Join P tmpDir "vid.mp4") w3 = (Ret None, w4, t4)
    /\ titleTmpl fl ep = (buf, None)
    /\ path = filepath_Join P tmpDir "vid.mp4".
Proof.
  intros H. unfold process in H.
  destruct (ioutil_TempDir P EmptyString EmptyString w) as [[err|tmpDir] w1]
    eqn:Htmp;
    destruct (in_bind_run P _ _ _ _ _ _ _ (call_run P _ _ _ _ _ Htmp) H)
      as [H' | (a & Ha & H')]; clear H;
    try (destruct H' as [H'|[]]; discriminate); injection Ha as Ha; subst a;
    rename H' into H.
  { trace_cases H. }
  cbv beta iota in H.
  apply in_defer in H as [H | (w' & H)]; [|trace_cases H; discriminate].
  destruct (image_Generate P (logo fl) (Itoa (Number ep) ++ ": " ++ Title ep)
              (font fl) (foreground fl) (background fl) (width fl) (height fl) w1)
    as [[err|img] w2] eqn:Himg;
    destruct (in_bind_run P _ _ _ _ _ _ _ (call_run P _ _ _ _ _ Himg) H)
      as [H' | (a & Ha & H')]; clear H;
    try (destruct H' as [H'|[]]; discriminate); injection Ha as Ha; subst a;
    rename H' into H.
  { trace_cases H. }
  cbv beta iota zeta in H.
  destruct (writePNG (filepath_Join P tmpDir "slide.png") img w2)
    as [[o3 w3] t3] eqn:Hpng.
  destruct (in_bind_run P _ _ _ _ _ _ _ Hpng H) as [H' | (r3 & -> & H')];
    clear H; rename H' into H.
  { exfalso. apply (writePNG_trace P (filepath_Join P tmpDir "slide.png") img w2
                      part data path). rewrite Hpng. exact H. }
  destruct r3 as [err|]; [trace_cases H|].
  destruct (ffmpeg (filepath_Join P tmpDir "slide.png") (MP3 ep)
              (filepath_Join P tmpDir "vid.mp4") w3) as [[o4 w4] t4] eqn:Hff.
  destruct (in_bind_run P _ _ _ _ _ _ _ Hff H) as [H' | (r4 & -> & H')];
    clear H; rename H' into H.
  { exfalso. assert (H' : In (EvInsert part data path)
                            (traceOf (ffmpeg (filepath_Join P tmpDir "slide.png")
                                        (MP3 ep) (filepath_Join P tmpDir "vid.mp4")
                                        w3))) by (rewrite Hff; exact H).
    trace_cases H'. discriminate. }
  destruct r4 as [err|]; [trace_cases H|].
  destruct (titleTmpl fl ep) as [buf [err|]] eqn:Et; [trace_cases H|].
  apply in_bind in H as [H | (r & w5 & H)]; [|destruct r; trace_cases H].
  apply upload_trace in H as (_ & _ & ->).
  exists tmpDir, img, buf, w1, w2, w3, w4, t3, t4. auto 10.
Qed.

Lemma process_upload_requires_witness :
  exists tmpDir img buf w1 w2 w3 w4 t3 t4,
    ioutil_TempDir (demo demoFeed) EmptyString EmptyString [] = (inr tmpDir, w1)
    /\ image_Generate (demo demoFeed) "resources/logo.png" "1: one"
         "resources/Roboto-Light.ttf" tt tt 1280 720 w1 = (inr img, w2)
    /\ writePNG (filepath_Join (demo demoFeed) tmpDir "slide.png") img w2
       = (Ret None, w3, t3)
    /\ ffmpeg (filepath_Join (demo demoFeed) tmpDir "slide.png") "http://x/1.mp3"
         (filepath_Join (demo demoFeed) tmpDir "vid.mp4") w3 = (Ret None, w4, t4)
    /\ titleTmpl (demoFlags demoFeed) demoEpisode = (buf, None)
    /\ "/tmp/1/vid.mp4" = filepath_Join (demo demoFeed) tmpDir "vid.mp4".
Proof.
  exact (process_upload_requires (demo demoFeed) (demoFlags demoFeed) None
           demoEpisode [] "snippet,status" demoVideo "/tmp/1/vid.mp4"
           demo_upload).
Defined.

(** X12: when the encoder fails, [process] returns
    "could not create video: <error>" with a line feed at its end,
    removes the temporary directory and neither renders the title nor
    reaches YouTube. *)
Theorem process_encode_error (P : Platform) (fl : Flags P)
    (client : option (Client P)) (ep : episode)
    (w w1 w2 w3 w4 : World P) (tmpDir : string) (img : Image P)
    (t3 : list event) (err : error) :
  let text := Itoa (Number ep) ++ ": " ++ Title ep in
  let slide := filepath_Join P tmpDir "slide.png" in
  let vid := filepath_Join P tmpDir "vid.mp4" in
  let args :=
    ["-y"; "-loop"; "1"; "-i"; slide; "-i"; MP3 ep; "-shortest";
     "-c:v"; "libx264"; "-pix_fmt"; "yuv420p"; "-c:a"; "aac"; "-crf"; "18";
     vid] in
  ioutil_TempDir P EmptyString EmptyString w = (inr tmpDir, w1) ->
  image_Generate P (logo fl) text (font fl) (foreground fl) (background fl)
    (width fl) (height fl) w1 = (inr img, w2) ->
  writePNG slide img w2 = (Ret None, w3, t3) ->
  exec_Run P "ffmpeg" args w3 = (Some err, w4) ->
  process fl client ep w
  = (Ret (Some (ENew ("could not create video: " ++ Error P err ++ LF))),
     snd (os_RemoveAll P tmpDir w4),
     ([EvTempDir; EvGenerate text (width fl) (height fl)] ++ t3
      ++ EvExec "ffmpeg" args
         :: removal P tmpDir (fst (os_RemoveAll P tmpDir w4)))%list).
Proof.
  intros text slide vid args Htmp Himg Hpng Hff.
  unfold process. run_bind. unfold call at 1. rewrite Htmp. cbv beta iota.
  unfold defer.
  run_bind. unfold call at 1. fold text. rewrite Himg. cbv beta iota.
  run_bind. fold slide. rewrite Hpng. cbv beta iota.
  run_bind. fold vid. unfold ffmpeg. fold args.
  rewrite (call_run P _ _ _ _ _ Hff). cbv beta iota.
  cbv [ret bind call emit removal].
  destruct (os_RemoveAll P tmpDir w4) as [[rm|] w5]; cbn [fst snd];
    norm_app; reflexivity.
Qed.

Lemma process_encode_error_witness :
  process (sampleFlags demoFeed (only "exec.Run" "ffmpeg")) None demoEpisode []
  = (Ret (Some (ENew ("could not create video: exec.Run ffmpeg: failed" ++ LF))),
     [],
     [EvTempDir; EvGenerate "1: one" 1280 720;
      EvCreate "/tmp/1/slide.png"; EvPngEncode; EvFileClose;
      EvExec "ffmpeg"
        ["-y"; "-loop"; "1"; "-i"; "/tmp/1/slide.png"; "-i"; "http://x/1.mp3";
         "-shortest"; "-c:v"; "libx264"; "-pix_fmt"; "yuv420p"; "-c:a"; "aac";
         "-crf"; "18"; "/tmp/1/vid.mp4"];
      EvRemoveAll "/tmp/1"]).
Proof.
  apply (process_encode_error (sample demoFeed (only "exec.Run" "ffmpeg"))
           (sampleFlags demoFeed (only "exec.Run" "ffmpeg")) None demoEpisode
           [] [] [] [] [] "/tmp/1" tt
           [EvCreate "/tmp/1/slide.png"; EvPngEncode; EvFileClose]
           (failure "exec.Run" "ffmpeg")); reflexivity.
Defined.

(** ** The processing loop and the outcome of [main] *)

Lemma process_returns (P : Platform) (fl : Flags P)
    (client : option (Client P)) (ep : episode) :
  returns (process fl client ep).
Proof.
  intros w. pose proof (process_cleanup P fl client ep w) as H.
  destruct (ioutil_TempDir P EmptyString EmptyString w) as [[err|tmpDir] w1].
  - eauto.
  - destruct H as (r & w2 & t & E & _). eauto.
Qed.

Lemma processLoop_cons_ok (P : Platform) (fl : Flags P)
    (client : option (Client P)) ep rest w w1 t1 :
  process fl client ep w = (Ret None, w1, t1) ->
  processLoop fl client (ep :: rest) w
  = after t1 (processLoop fl client rest w1).
Proof.
  intros H. cbn [processLoop]. rewrite (bind_run P _ _ _ _ _ _ H). reflexivity.
Qed.

Lemma processLoop_cons_error (P : Platform) (fl : Flags P)
    (client : option (Client P)) ep rest w w1 t1 err :
  process fl client ep w = (Ret (Some err), w1, t1) ->
  processLoop fl client (ep :: rest) w
  = (Exit 1, w1,
     (t1 ++ [Stderr ("episode " ++ Itoa (Number ep) ++ ": " ++ Error P err ++ LF)])
     %list).
Proof.
  intros H. cbn [processLoop]. rewrite (bind_run P _ _ _ _ _ _ H). reflexivity.
Qed.

(** X13: the processing loop stops at the first episode [process] fails
    on: it prints "episode <number>: <error>" on standard error and
    exits with status 1.  The episodes before it have been processed and
    stay so; the episodes behind it are not touched. *)
Theorem processLoop_stops (P : Platform) (fl : Flags P)
    (client : option (Client P)) (done rest : list episode) (ep : episode)
    (w w1 w2 : World P) (t1 t2 : list event) (err : error) :
  processLoop fl client done w = (Ret tt, w1, t1) ->
  process fl client ep w1 = (Ret (Some err), w2, t2) ->
  processLoop fl client (done ++ ep :: rest) w
  = (Exit 1, w2,
     (t1 ++ t2
      ++ [Stderr ("episode " ++ Itoa (Number ep) ++ ": " ++ Error P err ++ LF)])
     %list).
Proof.
  revert w t1. induction done as [|e done IH]; intros w t1 Hdone Hep.
  - cbn in Hdone. injection Hdone as <- <-. cbn [app].
    apply processLoop_cons_error. exact Hep.
  - destruct (process_returns P fl client e w) as (r & w' & t' & He).
    cbn [processLoop] in Hdone. rewrite (bind_run P _ _ _ _ _ _ He) in Hdone.
    destruct r as [e'|].
    + discriminate.
    + destruct (processLoop fl client done w') as [[o wd] td] eqn:Ed.
      unfold after, outcomeOf, worldOf, traceOf in Hdone. cbn [fst snd] in Hdone.
      injection Hdone as -> -> <-.
      cbn [app]. rewrite (processLoop_cons_ok P fl client e _ w w' t' He).
      rewrite (IH w' td Ed Hep).
      unfold after, outcomeOf, worldOf, traceOf. cbn [fst snd].
      rewrite <- app_assoc. reflexivity.
Qed.

Lemma processLoop_stops_witness :
  processLoop (sampleFlags demoFeed (only "image.Generate" "2: two")) None
    (map episode_of_item [demoItem 1 "one"; demoItem 2 "two"; demoItem 3 "three"])
    []
  = (Exit 1, [],
     (traceOf (processLoop (sampleFlags demoFeed (only "image.Generate" "2: two"))
                 None [demoEpisode] [])
      ++ [EvTempDir; EvGenerate "2: two" 1280 720; EvRemoveAll "/tmp/1"]
      ++ [Stderr ("episode 2: could not generate image: "
                  ++ "image.Generate 2: two: failed" ++ LF)])%list).
Proof.
  exact (processLoop_stops (sample demoFeed (only "image.Generate" "2: two"))
           (sampleFlags demoFeed (only "image.Generate" "2: two")) None
           [demoEpisode] [episode_of_item (demoItem 3 "three")]
           (episode_of_item (demoItem 2 "two")) [] [] []
           (traceOf (processLoop
                       (sampleFlags demoFeed (only "image.Generate" "2: two"))
                       None [demoEpisode] []))
           [EvTempDir; EvGenerate "2: two" 1280 720; EvRemoveAll "/tmp/1"]
           (ENew ("could not generate image: " ++ "image.Generate 2: two: failed"))
           eq_refl eq_refl).
Defined.






(** ** More on [parseRange] *)

Lemma parseUintLoop_nonneg s : forall n, 0 <= n -> 0 <= fst (parseUintLoop s n).
Proof.
  induction s as [|c s IH]; intros n Hn; cbn [parseUintLoop]; [exact Hn|].
  destruct (_ && _); [|cbn; lia].
  destruct (maxUint64 / 10 + 1 <=? n); [rewrite maxUint64_eq; cbn; lia|].
  destruct (_ || _); [rewrite maxUint64_eq; cbn; lia|].
  apply IH. apply Z.mod_pos_bound. reflexivity.
Qed.

(** Without a minus sign [Atoi] reads a number between 0 and the
    largest [int]. *)
Lemma Atoi_no_minus s n :
  Atoi s = (n, None) -> countByte "-" s = O -> 0 <= n <= maxInt.
Proof.
  destruct s as [|c s]; [discriminate|].
  unfold Atoi, ParseInt10. cbn [countByte]. intros H Hc.
  assert (Hneg : Ascii.eqb c "-" = false).
  { rewrite Ascii.eqb_sym. destruct (Ascii.eqb "-" c); [discriminate | reflexivity]. }
  rewrite Hneg in H. cbn [negb andb orb] in H.
  set (body := if Ascii.eqb c "+" || false then s else String c s) in *.
  assert (Hnn : 0 <= fst (ParseUint10 body)).
  { unfold ParseUint10. destruct body; [cbn; lia|].
    apply parseUintLoop_nonneg. lia. }
  destruct (ParseUint10 body) as [un [[|]|]]; cbn [fst] in Hnn;
    try discriminate;
    change (2 ^ (intSize - 1)) with 9223372036854775808 in H;
    rewrite maxInt_eq;
    destruct (Z.leb_spec 9223372036854775808 un); try discriminate;
    injection H as <-; lia.
Qed.

Lemma digits_no_dash ds : allDigits ds = true -> countByte "-" ds = O.
Proof.
  induction ds as [|c ds IH]; intros H; [reflexivity|].
  cbn in H. apply andb_prop in H as [Hc Hs].
  destruct (isDigit_not_sign c Hc) as [_ Hm]. cbn [countByte].
  rewrite Ascii.eqb_sym, Hm. now apply IH.
Qed.

(** X15: a range [parseRange] returns without error comes from a token
    with at most one dash whose parts all have the syntax of a number,
    and both its bounds lie between 0 and the largest [int]; from a
    token without a dash the two bounds are equal. *)
Theorem parseRange_success (s : string) (first last : Z) :
  parseRange s = Val (first, last, None) ->
  (countByte "-" s <= 1)%nat
  /\ Forall (fun p => isNumeric p = true) (Split s "-")
  /\ 0 <= first <= maxInt
  /\ 0 <= last <= maxInt
  /\ (countByte "-" s = O -> first = last).
Proof.
  unfold parseRange.
  pose proof (Split_length "-" s) as Hlen.
  pose proof (Split_parts "-" s) as Hparts.
  destruct (Split s "-") as [|p0 [|p1 [|p2 ps]]]; cbn in Hlen;
    cbn [List.length index nth_error pbind]; try discriminate.
  - destruct (Atoi p0) as [n e] eqn:E0. intros H. injection H as <- <- ->.
    inversion Hparts as [|? ? Hp0 _]; subst.
    pose proof (Atoi_no_minus p0 n E0 Hp0).
    pose proof (Atoi_numeric p0 n E0).
    repeat split; auto; lia.
  - destruct (Atoi p0) as [n [e|]] eqn:E0; [discriminate|].
    destruct (Atoi p1) as [m e] eqn:E1. intros H. injection H as <- <- ->.
    inversion Hparts as [|? ? Hp0 Hps]; subst.
    inversion Hps as [|? ? Hp1 _]; subst.
    pose proof (Atoi_no_minus p0 n E0 Hp0).
    pose proof (Atoi_no_minus p1 m E1 Hp1).
    pose proof (Atoi_numeric p0 n E0). pose proof (Atoi_numeric p1 m E1).
    repeat split; auto; lia.
Qed.

Lemma parseRange_success_witness :
  parseRange "+2-10" = Val (2, 10, None)
  /\ 0 <= 2 <= maxInt /\ 0 <= 10 <= maxInt.
Proof.
  split; [reflexivity|].
  destruct (parseRange_success "+2-10" 2 10 eq_refl) as (_ & _ & H1 & H2 & _).
  split; assumption.
Defined.

(** X16: an episode with a negative number is selected by no answer to
    the range prompt: whatever range [parseRange] returns, the test of
    the selection loop fails on it. *)
Theorem negative_never_selected (answer : string) (first last : Z)
    (e : episode) :
  parseRange answer = Val (first, last, None) ->
  Number e < 0 ->
  inRange first last e = false
  /\ forall (P : Platform) (eps : list episode) (w : World P),
       ~ In e (match outcomeOf (selectLoop first last eps [] w) with
               | Ret selected => selected
               | _ => []
               end).
Proof.
  intros Hp Hneg.
  destruct (parseRange_success answer first last Hp) as (_ & _ & Hf & _ & _).
  assert (Hr : inRange first last e = false).
  { unfold inRange. destruct (Z.leb_spec first (Number e)); [lia | reflexivity]. }
  split; [exact Hr|]. intros P eps w. rewrite selectLoop_run.
  cbn [outcomeOf fst app]. intros Hin. apply filter_In in Hin as [_ Hin].
  congruence.
Qed.

Lemma negative_never_selected_witness :
  inRange 0 10 (episode_of_item (demoItem (-1) "teaser")) = false.
Proof.
  apply (negative_never_selected "0-10" 0 10
           (episode_of_item (demoItem (-1) "teaser"))).
  - reflexivity.
  - cbn. lia.
Defined.

Lemma parseUintLoop_overflow s : forall n,
  allDigits s = true -> 0 <= n <= maxUint64 -> maxUint64 < decimal s n ->
  parseUintLoop s n = (maxUint64, Some ErrRange).
Proof.
  induction s as [|c s IH]; intros n Hd Hn Hover; [cbn [decimal] in Hover; lia|].
  cbn in Hd. apply andb_prop in Hd as [Hc Hs].
  pose proof (isDigit_range c Hc) as Hr.
  cbn [parseUintLoop decimal] in *. fold (isDigit c). rewrite Hc.
  set (d := byte_val c - byte_val "0") in *.
  rewrite maxUint64_eq in *.
  change (18446744073709551615 / 10 + 1) with 1844674407370955162.
  change (2 ^ 64) with 18446744073709551616.
  destruct (Z.leb_spec 1844674407370955162 n); [reflexivity|].
  destruct (Z_lt_le_dec (n * 10 + d) 18446744073709551616) as [Hlt|Hge].
  - rewrite Z.mod_small by lia.
    destruct (Z.ltb_spec (n * 10 + d) (n * 10)); [lia|].
    destruct (Z.ltb_spec 18446744073709551615 (n * 10 + d)); [lia|].
    cbn [orb]. apply IH; [assumption | lia | assumption].
  - assert (Hm : (n * 10 + d) mod 18446744073709551616
                 = n * 10 + d - 18446744073709551616).
    { symmetry. apply Z.mod_unique with (q := 1); lia. }
    rewrite Hm.
    destruct (Z.ltb_spec (n * 10 + d - 18446744073709551616) (n * 10)); [|lia].
    reflexivity.
Qed.

(** X17: digits that denote a number above the largest [int] are not a
    range: [parseRange] returns the range error of [Atoi], with both
    bounds at the largest [int]. *)
Theorem parseRange_out_of_range (ds : string) :
  isDigits ds = true ->
  maxInt < decimal ds 0 ->
  parseRange ds
  = Val (maxInt, maxInt,
         Some (ENum {| Func := "Atoi"; Num := ds; Err := ErrRange |})).
Proof.
  intros Hd Hover.
  assert (Ha : allDigits ds = true) by (destruct ds; [discriminate | exact Hd]).
  rewrite (parseRange_no_dash ds (digits_no_dash ds Ha)).
  assert (E : Atoi ds
              = (maxInt, Some (ENum {| Func := "Atoi"; Num := ds; Err := ErrRange |}))).
  { destruct ds as [|c s]; [discriminate|].
    assert (Hc : isDigit c = true).
    { cbn in Hd. now apply andb_prop in Hd as [Hc _]. }
    destruct (isDigit_not_sign c Hc) as [Hp Hm].
    unfold Atoi, ParseInt10. rewrite Hp, Hm. cbn [orb negb andb].
    unfold ParseUint10. rewrite maxInt_eq in Hover.
    change (2 ^ (intSize - 1)) with 9223372036854775808.
    destruct (Z_le_gt_dec (decimal (String c s) 0) maxUint64) as [Hle|Hgt].
    - rewrite parseUintLoop_decimal by (assumption || lia).
      clear Hle. destruct (Z.leb_spec 9223372036854775808 (decimal (String c s) 0)); [|lia].
      reflexivity.
    - rewrite maxUint64_eq in Hgt.
      rewrite parseUintLoop_overflow
        by (try assumption; rewrite ?maxUint64_eq; lia).
      reflexivity. }
  rewrite E. reflexivity.
Qed.

Lemma parseRange_out_of_range_witness :
  parseRange "18446744073709551616"
  = Val (maxInt, maxInt,
         Some (ENum {| Func := "Atoi"; Num := "18446744073709551616";
                       Err := ErrRange |})).
Proof.
  apply parseRange_out_of_range; [reflexivity|].
  rewrite maxInt_eq. vm_compute. reflexivity.
Defined.

(** *** Printing and reading back *)

Lemma string_of_uint_digits d : allDigits (NilEmpty.string_of_uint d) = true.
Proof. induction d; cbn [NilEmpty.string_of_uint allDigits]; auto. Qed.

Lemma decimal_of_uint_acc d : forall acc,
  decimal (NilEmpty.string_of_uint d) (Z.pos acc)
  = Z.pos (Pos.of_uint_acc d acc).
Proof.
  induction d; intros acc; cbn [NilEmpty.string_of_uint decimal Pos.of_uint_acc];
    [reflexivity|..];
    match goal with
    | |- decimal _ ?a = Z.pos (Pos.of_uint_acc _ ?b) =>
        replace a with (Z.pos b); [apply IHd|]
    end;
    match goal with
    | |- context [byte_val ?c - byte_val ?z] =>
        let v := eval vm_compute in (byte_val c - byte_val z) in
        change (byte_val c - byte_val z) with v
    end; lia.
Qed.

Lemma decimal_of_uint d :
  decimal (NilEmpty.string_of_uint d) 0 = Z.of_N (Pos.of_uint d).
Proof.
  induction d; cbn [NilEmpty.string_of_uint decimal Pos.of_uint];
    [reflexivity | exact IHd | ..];
    match goal with
    | |- context [byte_val ?c - byte_val ?z] =>
        let v := eval vm_compute in (0 * 10 + (byte_val c - byte_val z)) in
        change (0 * 10 + (byte_val c - byte_val z)) with v
    end; apply decimal_of_uint_acc.
Qed.

(** [Atoi] reads back what [Itoa] prints for a number that is not
    negative. *)
Lemma Atoi_Itoa n : 0 <= n <= maxInt -> Atoi (Itoa n) = (n, None).
Proof.
  intros Hn. unfold Itoa. destruct n as [|p|p]; [reflexivity| |lia].
  cbn [Z.to_int NilZero.string_of_int].
  assert (Hs : NilZero.string_of_uint (Pos.to_uint p)
               = NilEmpty.string_of_uint (Pos.to_uint p)).
  { pose proof (DecimalPos.Unsigned.to_uint_nonnil p).
    destruct (Pos.to_uint p); [congruence | reflexivity..]. }
  rewrite Hs.
  assert (Hv : decimal (NilEmpty.string_of_uint (Pos.to_uint p)) 0 = Z.pos p).
  { rewrite decimal_of_uint, DecimalPos.Unsigned.of_to. reflexivity. }
  rewrite <- Hv at 1. apply Atoi_digits; [|rewrite Hv; lia].
  unfold isDigits.
  pose proof (string_of_uint_digits (Pos.to_uint p)) as Hd.
  destruct (NilEmpty.string_of_uint (Pos.to_uint p)) eqn:E; [|exact Hd].
  cbn in Hv. lia.
Qed.

(** X18: the number [main] prints for an episode, typed back at the
    range prompt, is read as the range of this number alone, when the
    number is not negative; the printed form of a negative number is
    rejected. *)
Theorem parseRange_Itoa (n : Z) :
  minInt <= n <= maxInt ->
  (0 <= n -> parseRange (Itoa n) = Val (n, n, None))
  /\ (n < 0 -> exists e, parseRange (Itoa n) = Val (0, 0, Some e)).
Proof.
  intros Hn. split.
  - intros Hpos.
    assert (Ha : Atoi (Itoa n) = (n, None)) by (apply Atoi_Itoa; lia).
    assert (Hd : countByte "-" (Itoa n) = O).
    { unfold Itoa. destruct n as [|p|p]; [reflexivity| |lia].
      cbn [Z.to_int NilZero.string_of_int].
      pose proof (DecimalPos.Unsigned.to_uint_nonnil p).
      replace (NilZero.string_of_uint (Pos.to_uint p))
        with (NilEmpty.string_of_uint (Pos.to_uint p))
        by (destruct (Pos.to_uint p); [congruence | reflexivity..]).
      apply digits_no_dash, string_of_uint_digits. }
    rewrite (parseRange_no_dash _ Hd), Ha. reflexivity.
  - intros Hneg. destruct n as [|p|p]; try lia.
    unfold Itoa. cbn [Z.to_int NilZero.string_of_int].
    apply parseRange_leading_minus.
Qed.

Lemma parseRange_Itoa_witness :
  parseRange (Itoa 42) = Val (42, 42, None)
  /\ exists e, parseRange (Itoa (-3)) = Val (0, 0, Some e).
Proof.
  split.
  - apply (parseRange_Itoa 42); [rewrite maxInt_eq; unfold minInt; cbn; lia | lia].
  - apply (parseRange_Itoa (-3)); [rewrite maxInt_eq; unfold minInt; cbn; lia | lia].
Defined.

(** ** What a run uploads *)









(** X20: when every step succeeds, [process] returns no error and has
    done its steps in this order: create the directory, generate the
    slide, write it, run the encoder, upload the video, remove the
    directory. *)
Theorem process_success (P : Platform) (fl : Flags P)
    (client : option (Client P)) (ep : episode)
    (w w1 w2 w3 w4 w5 w6 : World P) (tmpDir buf : string) (img : Image P)
    (t3 t4 t5 : list event) (rm : option error) :
  let text := Itoa (Number ep) ++ ": " ++ Title ep in
  let slide := filepath_Join P tmpDir "slide.png" in
  let vid := filepath_Join P tmpDir "vid.mp4" in
  let data :=
    {| youtube.Snippet :=
         {| youtube.Title := buf;
            youtube.Description :=
              ("Original post: " ++ Link ep ++ LF ++ LF)
              ++ Replace (bluemonday_StrictPolicy_Sanitize P (Desc ep)) LF " " (-1);
            youtube.Tags := (Tags ep ++ Split (tags fl) ",")%list |};
       youtube.Status := {| youtube.PrivacyStatus := "unlisted" |} |} in
  ioutil_TempDir P EmptyString EmptyString w = (inr tmpDir, w1) ->
  image_Generate P (logo fl) text (font fl) (foreground fl) (background fl)
    (width fl) (height fl) w1 = (inr img, w2) ->
  writePNG slide img w2 = (Ret None, w3, t3) ->
  ffmpeg slide (MP3 ep) vid w3 = (Ret None, w4, t4) ->
  titleTmpl fl ep = (buf, None) ->
  upload client data vid w4 = (Ret None, w5, t5) ->
  os_RemoveAll P tmpDir w5 = (rm, w6) ->
  process fl client ep w
  = (Ret None, w6,
     ([EvTempDir; EvGenerate text (width fl) (height fl)] ++ t3 ++ t4 ++ t5
      ++ removal P tmpDir rm)%list).
Proof.
  intros text slide vid data Htmp Himg Hpng Hff Htitle Hup Hrm.
  exact (process_uploads P fl client ep w w1 w2 w3 w4 tmpDir buf img t3 t4 t5
           w5 w6 None rm Htmp Himg Hpng Hff Htitle Hup Hrm).
Qed.

Lemma process_success_witness :
  process (sampleFlags demoFeed (only "os.RemoveAll" "/tmp/1")) None demoEpisode []
  = (Ret None, [],
     [EvTempDir; EvGenerate "1: one" 1280 720;
      EvCreate "/tmp/1/slide.png"; EvPngEncode; EvFileClose;
      EvExec "ffmpeg"
        ["-y"; "-loop"; "1"; "-i"; "/tmp/1/slide.png"; "-i"; "http://x/1.mp3";
         "-shortest"; "-c:v"; "libx264"; "-pix_fmt"; "yuv420p"; "-c:a"; "aac";
         "-crf"; "18"; "/tmp/1/vid.mp4"];
      EvYoutubeNew; EvOpen "/tmp/1/vid.mp4";
      EvInsert "snippet,status" demoVideo "/tmp/1/vid.mp4"; EvFileClose;
      EvRemoveAll "/tmp/1";
      LogPrintf "could not remove /tmp/1: os.RemoveAll /tmp/1: failed"]).
Proof.
  apply (process_success (sample demoFeed (only "os.RemoveAll" "/tmp/1"))
           (sampleFlags demoFeed (only "os.RemoveAll" "/tmp/1")) None demoEpisode
           [] [] [] [] [] [] [] "/tmp/1" "one: GCPPodcast 1" tt
           [EvCreate "/tmp/1/slide.png"; EvPngEncode; EvFileClose]
           [EvExec "ffmpeg"
              ["-y"; "-loop"; "1"; "-i"; "/tmp/1/slide.png"; "-i";
               "http://x/1.mp3"; "-shortest"; "-c:v"; "libx264"; "-pix_fmt";
               "yuv420p"; "-c:a"; "aac"; "-crf"; "18"; "/tmp/1/vid.mp4"]]
           [EvYoutubeNew; EvOpen "/tmp/1/vid.mp4";
            EvInsert "snippet,status" demoVideo "/tmp/1/vid.mp4"; EvFileClose]
           (Some (failure "os.RemoveAll" "/tmp/1"))); reflexivity.
Defined.

Lemma authedClient_result_witness :
  exists client err w' t,
    @authedClient (demo demoFeed) ["4/code"]
    = (Ret (client, err), w', EvReadFile "client_secrets.json" :: t)
    /\ (client = None <-> err <> None)
    /\ In (EvExchange "4/code") t.
Proof.
  destruct (authedClient_result (demo demoFeed) ["4/code"])
    as (client & err & w' & t & E & Hce & _).
  exists client, err, w', t. split; [exact E|]. split; [exact Hce|].
  vm_compute in E. injection E as _ _ _ <-.
  do 3 right. left. reflexivity.
Defined.
